(** * luactl: variable synchronisation between an addon module and its root

    A shallow embedding of package [sync] of lablabs/luactl, in its two
    coexisting variants:
    - the current generator (ProcessModules, processModule, extractVariables,
      syncAddonVariables), in [Module Sync];
    - the legacy rewrite engine (syncAddonDefaults, and the older
      syncAddonVariables that edits the source blocks in place), in
      [Module Legacy].

    The program is written against three libraries that are not part of the
    repository: Go's [strings], HashiCorp's [hclwrite] and the operating
    system.  [strings] is modelled on byte strings; [hclwrite]'s token model
    and token constructors are written out, its parser, formatter, string
    escaper and serialiser are the fields of a class; the file system, the
    logger and the cancellable context are explicit state. *)

From Stdlib Require Import ZArith NArith Ascii.
From stdpp Require Import base tactics option list strings gmap.

Local Open Scope string_scope.
Local Open Scope list_scope.
Set Warnings "-register-all".

(** ** Characters that cannot be written inside a literal *)

Definition dquote : string := String (Ascii.ascii_of_nat 34) EmptyString.
Definition newline : string := String (Ascii.ascii_of_nat 10) EmptyString.

(** ** Go's [strings] package, on byte strings

    A Go string is a sequence of bytes, and so is a [string] here.
    [TrimSpace] works on the runes the bytes encode in UTF-8: it strips the
    runes [unicode.IsSpace] accepts, which are those of [whiteSpace].  The
    decoder of Go gives a rune other than the error rune only for the bytes
    that encode it, at the front of a string and at its end alike, so a
    white space rune begins (ends) a string exactly when its encoding is a
    prefix (a suffix) of the bytes.  [Trim] is called with a cutset of ASCII
    bytes, on which Go works byte by byte. *)

Module GoStrings.

(** The runes with the property White_Space. *)
Definition whiteSpace : list N :=
  [0x09; 0x0A; 0x0B; 0x0C; 0x0D; 0x20; 0x85; 0xA0; 0x1680;
   0x2000; 0x2001; 0x2002; 0x2003; 0x2004; 0x2005; 0x2006; 0x2007; 0x2008;
   0x2009; 0x200A; 0x2028; 0x2029; 0x202F; 0x205F; 0x3000]%N.

(** [utf8.AppendRune] of a rune below 0x10000 that is no surrogate. *)
Definition EncodeRune (r : N) : string :=
  let byte (n : N) := Ascii.ascii_of_N n in
  let continuation (n : N) := byte (N.lor 0x80 (N.land n 0x3F)) in
  if (r <? 0x80)%N then String (byte r) EmptyString
  else if (r <? 0x800)%N
       then String (byte (N.lor 0xC0 (N.shiftr r 6)))
              (String (continuation r) EmptyString)
       else String (byte (N.lor 0xE0 (N.shiftr r 12)))
              (String (continuation (N.shiftr r 6))
                 (String (continuation r) EmptyString)).

(** The number of bytes of the rune of [encodings] that [s] begins with; 0
    when it begins with none. *)
Definition runeWidth (encodings : list string) (s : string) : nat :=
  match List.find (fun e => String.prefix e s) encodings with
  | Some e => String.length e
  | None => 0
  end.

(** [dropRunes encodings s skip]: the first [skip] bytes of [s] belong to a
    rune already dropped. *)
Fixpoint dropRunes (encodings : list string) (s : string) (skip : nat) : string :=
  match s with
  | EmptyString => EmptyString
  | String _ s' =>
      match skip with
      | S k => dropRunes encodings s' k
      | O =>
          match runeWidth encodings s with
          | O => s
          | S k => dropRunes encodings s' k
          end
      end
  end.

(** The white space at the front goes first, then the white space at the
    end, read from the last byte backwards. *)
Definition TrimSpace (s : string) : string :=
  let left := dropRunes (EncodeRune <$> whiteSpace) s 0 in
  String.rev
    (dropRunes (String.rev ∘ EncodeRune <$> whiteSpace) (String.rev left) 0).

Fixpoint TrimLeftFunc (f : ascii -> bool) (s : string) : string :=
  match s with
  | EmptyString => EmptyString
  | String c s' => if f c then TrimLeftFunc f s' else s
  end.

Fixpoint TrimRightFunc (f : ascii -> bool) (s : string) : string :=
  match s with
  | EmptyString => EmptyString
  | String c s' =>
      match TrimRightFunc f s' with
      | EmptyString => if f c then EmptyString else String c EmptyString
      | r => String c r
      end
  end.

Definition TrimFunc (f : ascii -> bool) (s : string) : string :=
  TrimRightFunc f (TrimLeftFunc f s).

Fixpoint inCutset (cutset : string) (c : ascii) : bool :=
  match cutset with
  | EmptyString => false
  | String d cutset' => Ascii.eqb c d || inCutset cutset' c
  end.

Definition Trim (s cutset : string) : string := TrimFunc (inCutset cutset) s.

Definition HasPrefix (s prefix : string) : bool := String.prefix prefix s.

Fixpoint Contains (s substr : string) : bool :=
  String.prefix substr s
  || match s with
     | EmptyString => false
     | String _ s' => Contains s' substr
     end.

(** [replaceFrom old new s skip]: the first [skip] bytes of [s] belong to a
    match already replaced. *)
Fixpoint replaceFrom (old new s : string) (skip : nat) : string :=
  match s with
  | EmptyString => EmptyString
  | String c s' =>
      match skip with
      | S k => replaceFrom old new s' k
      | O =>
          if String.prefix old s
          then new +:+ replaceFrom old new s' (String.length old - 1)
          else String c (replaceFrom old new s' 0)
      end
  end.

Fixpoint interleave (new s : string) : string :=
  match s with
  | EmptyString => new
  | String c s' => new +:+ String c (interleave new s')
  end.

Definition ReplaceAll (s old new : string) : string :=
  match old with
  | EmptyString => interleave new s
  | _ => replaceFrom old new s 0
  end.

End GoStrings.

(** ** hclwrite: tokens

    The token types are those of hclsyntax. *)

Inductive TokenType :=
| TokenOBrace | TokenCBrace | TokenOBrack | TokenCBrack | TokenOParen | TokenCParen
| TokenOQuote | TokenCQuote | TokenOHeredoc | TokenCHeredoc
| TokenStar | TokenSlash | TokenPlus | TokenMinus | TokenPercent
| TokenEqual | TokenEqualOp | TokenNotEqual
| TokenLessThan | TokenLessThanEq | TokenGreaterThan | TokenGreaterThanEq
| TokenAnd | TokenOr | TokenBang
| TokenDot | TokenComma | TokenDoubleColon | TokenEllipsis | TokenFatArrow
| TokenQuestion | TokenColon
| TokenTemplateInterp | TokenTemplateControl | TokenTemplateSeqEnd
| TokenQuotedLit | TokenStringLit | TokenNumberLit | TokenIdent
| TokenComment | TokenNewline | TokenEOF
| TokenBitwiseAnd | TokenBitwiseOr | TokenBitwiseNot | TokenBitwiseXor
| TokenStarStar | TokenApostrophe | TokenBacktick | TokenSemicolon | TokenTabs
| TokenInvalid | TokenBadUTF8 | TokenQuotedNewline | TokenNil.

#[global] Instance TokenType_eq_dec : EqDecision TokenType.
Proof. solve_decision. Defined.

Record Token := mkToken {
  Token_Type : TokenType;
  Token_Bytes : string;
  Token_SpacesBefore : nat
}.

#[global] Instance Token_eq_dec : EqDecision Token.
Proof. solve_decision. Defined.

Abbreviation Tokens := (list Token).

(** What a token is, apart from the spacing the formatter owns. *)
Definition tokenText (t : Token) : TokenType * string :=
  (Token_Type t, Token_Bytes t).

Definition tokensText (ts : Tokens) : list (TokenType * string) :=
  tokenText <$> ts.

Fixpoint spaces (n : nat) : string :=
  match n with
  | O => EmptyString
  | S k => String (Ascii.ascii_of_nat 32) (spaces k)
  end.

(** [Tokens.Bytes]: every token preceded by its [SpacesBefore] spaces. *)
Fixpoint Tokens_Bytes (ts : Tokens) : string :=
  match ts with
  | [] => EmptyString
  | t :: ts' => spaces (Token_SpacesBefore t) +:+ Token_Bytes t +:+ Tokens_Bytes ts'
  end.

(** ** hclwrite: bodies, blocks, files

    A body is the ordered list of its items.  A parsed body has no two
    attributes of one name (the parser rejects a redefinition), so the first
    match of [GetAttribute] is the only one. *)

Inductive Item (B : Type) :=
| ItemAttr (name : string) (expr : Tokens)
| ItemBlock (b : B)
| ItemTokens (ts : Tokens).
Arguments ItemAttr {B} name expr.
Arguments ItemBlock {B} b.
Arguments ItemTokens {B} ts.

Inductive Block := MkBlock {
  Block_Type : string;
  Block_Labels : list string;
  Block_Body : list (Item Block)
}.

Abbreviation Body := (list (Item Block)).

Record File := mkFile { File_Body : Body }.

Definition NewEmptyFile : File := mkFile [].

Definition NewBlock (typeName : string) (labels : list string) : Block :=
  MkBlock typeName labels [].

Fixpoint Blocks (b : Body) : list Block :=
  match b with
  | [] => []
  | ItemBlock blk :: b' => blk :: Blocks b'
  | _ :: b' => Blocks b'
  end.

(** [Body.GetAttribute]: [None] is Go's nil *Attribute. *)
Fixpoint GetAttribute (b : Body) (name : string) : option Tokens :=
  match b with
  | [] => None
  | ItemAttr n e :: b' => if decide (n = name) then Some e else GetAttribute b' name
  | _ :: b' => GetAttribute b' name
  end.

Fixpoint replaceAttribute (b : Body) (name : string) (tokens : Tokens) : Body :=
  match b with
  | [] => []
  | ItemAttr n e :: b' =>
      if decide (n = name) then ItemAttr n tokens :: b'
      else ItemAttr n e :: replaceAttribute b' name tokens
  | it :: b' => it :: replaceAttribute b' name tokens
  end.

(** [Body.SetAttributeRaw]: the expression of an existing attribute is
    replaced where it stands, a new attribute goes to the end. *)
Definition SetAttributeRaw (b : Body) (name : string) (tokens : Tokens) : Body :=
  match GetAttribute b name with
  | Some _ => replaceAttribute b name tokens
  | None => b ++ [ItemAttr name tokens]
  end.

Definition AppendBlock (b : Body) (blk : Block) : Body := b ++ [ItemBlock blk].

Definition AppendNewline (b : Body) : Body :=
  b ++ [ItemTokens [mkToken TokenNewline newline 0]].

(** [Body.Attributes]: a Go map from name to attribute. *)
Fixpoint Attributes (b : Body) : gmap string Tokens :=
  match b with
  | [] => ∅
  | ItemAttr n e :: b' => <[n := e]> (Attributes b')
  | _ :: b' => Attributes b'
  end.

Definition Block_setBody (blk : Block) (b : Body) : Block :=
  MkBlock (Block_Type blk) (Block_Labels blk) b.

(** ** cty values, as far as the program builds them *)

Inductive ctyType := cty_String.
Inductive ctyValue :=
| NullVal (ty : ctyType)
| StringVal (s : string).

(** ** The parts of hclwrite taken as given

    [format] recomputes [SpacesBefore] and nothing else.  The other three
    are not constrained: [escapeQuotedStringLit s] is the inside of the
    quoted literal written for the string value made from [s] (cty
    normalises the string, hclwrite escapes it); [ParseConfig src filename]
    is the parsed file, or the text of the error diagnostics; [File_Bytes]
    is [File.Bytes], which formats all the tokens of the file and writes
    them out. *)

Class HclWrite := {
  format : Tokens -> Tokens;
  format_text : forall ts, tokenText <$> format ts = tokenText <$> ts;
  escapeQuotedStringLit : string -> string;
  ParseConfig : string -> string -> string + File;
  File_Bytes : File -> string
}.

Section TokenConstructors.
Context `{HclWrite}.

Definition TokensForIdentifier (name : string) : Tokens :=
  [mkToken TokenIdent name 0].

Definition appendTokensForValue (val : ctyValue) (toks : Tokens) : Tokens :=
  match val with
  | NullVal _ => toks ++ [mkToken TokenIdent "null" 0]
  | StringVal s =>
      let src := escapeQuotedStringLit s in
      toks ++ [mkToken TokenOQuote dquote 0]
           ++ (if decide (String.length src = 0) then [] else [mkToken TokenQuotedLit src 0])
           ++ [mkToken TokenCQuote dquote 0]
  end.

Definition TokensForValue (val : ctyValue) : Tokens :=
  format (appendTokensForValue val []).

Fixpoint joinArgs (index : nat) (args : list Tokens) : Tokens :=
  match args with
  | [] => []
  | arg :: args' =>
      (if decide (index = 0) then [] else [mkToken TokenComma "," 0])
        ++ arg ++ joinArgs (S index) args'
  end.

Definition TokensForFunctionCall (funcName : string) (args : list Tokens) : Tokens :=
  format (TokensForIdentifier funcName
            ++ [mkToken TokenOParen "(" 0]
            ++ joinArgs 0 args
            ++ [mkToken TokenCParen ")" 0]).

Definition SetAttributeValue (b : Body) (name : string) (val : ctyValue) : Body :=
  SetAttributeRaw b name (TokensForValue val).

End TokenConstructors.

(** ** Outcomes: a Go call returns, or panics *)

Inductive Outcome (A : Type) :=
| Done (a : A)
| Panicked (msg : string).
Arguments Done {A} a.
Arguments Panicked {A} msg.

Definition nilDereference : string :=
  "runtime error: invalid memory address or nil pointer dereference".
Definition indexOutOfRange : string :=
  "runtime error: index out of range [0] with length 0".

Definition Sprintf_description (descriptionValue defaultValue : string) : string :=
  descriptionValue +:+ " Defaults to `" +:+ defaultValue +:+ "`.".

(** ** Errors *)

Inductive Errno := ENOENT | EACCES | ENOTDIR | EIO | ENOSPC.

Inductive FmtArg :=
| FmtString (s : string)
| FmtInt (n : Z).

(** [fmt_Errorf format args wrapped] keeps the format and its operands;
    [wrapped] is the operand of the verb [%w], when the format has one. *)
Inductive error :=
| SyscallErrno (e : Errno)
| PathError (op path : string) (err : error)
| errors_New (text : string)
| fmt_Errorf (format : string) (args : list FmtArg) (wrapped : option error)
| context_Canceled
| context_DeadlineExceeded.

(** [errors.Is(err, fs.ErrNotExist)]: the chain of wrapped errors is walked
    down to the error number. *)
Fixpoint errors_Is_ErrNotExist (err : error) : bool :=
  match err with
  | SyscallErrno ENOENT => true
  | PathError _ _ e => errors_Is_ErrNotExist e
  | fmt_Errorf _ _ (Some e) => errors_Is_ErrNotExist e
  | _ => false
  end.

(** ** The world: directories, files, and what was logged

    A path maps to its content, or to the error number every access to it
    fails with; a path that is absent does not exist.  A write can also fail
    after the file has been opened, when the device is full or fails: [faults]
    gives, for a path, the number of bytes a write to it puts down before it
    fails, and the error number it fails with.  [dirs] is what listing a
    directory gives; the program lists one directory, once, before it writes
    any file, and the model keeps listings and files apart. *)

Record DirEntry := mkDirEntry { DirEntry_Name : string; DirEntry_IsDir : bool }.

Inductive Level := LevelDebug | LevelInfo | LevelWarn | LevelError.

Inductive LogValue :=
| LogString (s : string)
| LogInt (n : Z)
| LogErr (e : error).

Record LogRecord := mkLogRecord {
  Record_Level : Level;
  Record_Message : string;
  Record_Attrs : list (string * LogValue)
}.

Record World := mkWorld {
  dirs : gmap string (Errno + list DirEntry);
  files : gmap string (Errno + string);
  faults : gmap string (nat * Errno);
  logged : list LogRecord
}.

Definition logAt (l : Level) (msg : string) (attrs : list (string * LogValue))
    (w : World) : World :=
  mkWorld (dirs w) (files w) (faults w) (logged w ++ [mkLogRecord l msg attrs]).

Definition os_ReadDir (name : string) (w : World) : error + list DirEntry :=
  match dirs w !! name with
  | None => inl (PathError "open" name (SyscallErrno ENOENT))
  | Some (inl e) => inl (PathError "open" name (SyscallErrno e))
  | Some (inr entries) => inr entries
  end.

Definition os_ReadFile (name : string) (w : World) : error + string :=
  match files w !! name with
  | None => inl (PathError "open" name (SyscallErrno ENOENT))
  | Some (inl e) => inl (PathError "open" name (SyscallErrno e))
  | Some (inr data) => inr data
  end.

(** [os.WriteFile] opens the file with O_WRONLY|O_CREATE|O_TRUNC, writes the
    data and closes the file.  When the file cannot be opened nothing
    changes.  Once it is open it is empty; a write that fails leaves the
    bytes it has put down, and returns the error of the write, or of the
    close when all the bytes were put down.  The mode is that of a file the
    call creates; the world does not keep it. *)
Definition os_WriteFile (name data : string) (perm : N) (w : World)
    : option error * World :=
  match files w !! name with
  | Some (inl e) => (Some (PathError "open" name (SyscallErrno e)), w)
  | _ =>
      match faults w !! name with
      | Some (n, e) =>
          (Some (PathError (if decide (n < String.length data) then "write" else "close")
                   name (SyscallErrno e)),
           mkWorld (dirs w) (<[name := inr (String.substring 0 n data)]> (files w))
             (faults w) (logged w))
      | None =>
          (None, mkWorld (dirs w) (<[name := inr data]> (files w)) (faults w) (logged w))
      end
  end.

(** Go's nil, as an error. *)
Definition nilError : option error := None.

(** A stateful Go call: it returns a value or panics, and leaves a world. *)
Definition M (A : Type) : Type := World -> Outcome A * World.

(** ** The cancellable context

    Whether [ctx.Done()] is closed depends on real time; the program looks
    at it once per directory entry, so a context is the number of looks
    after which it is closed (if ever) and the error [ctx.Err()] gives
    from then on. *)

Record Context := mkContext {
  Context_firesAt : option nat;
  Context_cause : error
}.

Definition Context_Err (ctx : Context) (tick : nat) : option error :=
  match Context_firesAt ctx with
  | Some k => if decide (k <= tick) then Some (Context_cause ctx) else None
  | None => None
  end.

(** ** path/filepath, taken as given *)

Class Filepath := {
  filepath_Join : list string -> string;
  filepath_Base : string -> string
}.

(** ** ProcessModules

    The two variants differ in the name of the directory prefix constant and
    of the function called for a module; the latter is the section variable
    [processModule]. *)

(** The three counters of the loop; each is at most the number of entries. *)
Record Counts := mkCounts {
  processedCount : nat;
  skippedCount : nat;
  errorCount : nat
}.

Inductive LoopExit :=
| LoopReturn (err : error)
| LoopEnd (c : Counts).

Module Orchestrator.
Section Orchestrator.
Variable processModule : string -> M (option error).

Definition modulePrefix : string := "addon".

(** The criterion of the [if] at the top of the loop body. *)
Definition skipped (moduleName : string) : bool :=
  negb (GoStrings.HasPrefix moduleName modulePrefix)
  || GoStrings.Contains moduleName ".".

(** [for _, entry := range entries], [tick] entries after its start. *)
Fixpoint processEntries (ctx : Context) (tick : nat) (entries : list DirEntry)
    (c : Counts) (w : World) : Outcome LoopExit * World :=
  match entries with
  | [] => (Done (LoopEnd c), w)
  | entry :: rest =>
      match Context_Err ctx tick with
      | Some err =>
          (Done (LoopReturn err),
           logAt LevelWarn "Processing cancelled" [("error", LogErr err)] w)
      | None =>
          if negb (DirEntry_IsDir entry) then
            processEntries ctx (S tick) rest c w
          else
            let moduleName := DirEntry_Name entry in
            if skipped moduleName then
              processEntries ctx (S tick) rest
                (mkCounts (processedCount c) (S (skippedCount c)) (errorCount c))
                (logAt LevelDebug "Skipping entry"
                   [("module", LogString moduleName);
                    ("reason", LogString "does not match criteria")] w)
            else
              let w1 := logAt LevelInfo "Processing module"
                          [("module", LogString moduleName)] w in
              match processModule moduleName w1 with
              | (Panicked msg, w2) => (Panicked msg, w2)
              | (Done (Some procErr), w2) =>
                  processEntries ctx (S tick) rest
                    (mkCounts (processedCount c) (skippedCount c) (S (errorCount c)))
                    (logAt LevelError "Failed to process module"
                       [("module", LogString moduleName); ("error", LogErr procErr)] w2)
              | (Done None, w2) =>
                  processEntries ctx (S tick) rest
                    (mkCounts (S (processedCount c)) (skippedCount c) (errorCount c))
                    w2
              end
      end
  end.

Definition ProcessModules (modulesDir : string) (ctx : Context) : M (option error) :=
  fun w =>
    let w0 := logAt LevelInfo "Starting variable sync from modules"
                [("modulesDir", LogString modulesDir)] w in
    match os_ReadDir modulesDir w0 with
    | inl err =>
        if errors_Is_ErrNotExist err then
          (Done nilError,
           logAt LevelWarn "Modules directory not found, skipping sync"
             [("modulesDir", LogString modulesDir)] w0)
        else
          (Done (Some (fmt_Errorf "failed to read directory %q: %w"
                         [FmtString modulesDir] (Some err))),
           logAt LevelError "Failed to read directory"
             [("path", LogString modulesDir); ("error", LogErr err)] w0)
    | inr entries =>
        match processEntries ctx 0 entries (mkCounts 0 0 0) w0 with
        | (Panicked msg, w1) => (Panicked msg, w1)
        | (Done (LoopReturn err), w1) => (Done (Some err), w1)
        | (Done (LoopEnd c), w1) =>
            let w2 := logAt LevelInfo "Variable sync finished"
                        [("processed", LogInt (Z.of_nat (processedCount c)));
                         ("skipped", LogInt (Z.of_nat (skippedCount c)));
                         ("errors", LogInt (Z.of_nat (errorCount c)))] w1 in
            if decide (0 < errorCount c) then
              (Done (Some (fmt_Errorf "encountered %d error(s) during processing"
                             [FmtInt (Z.of_nat (errorCount c))] None)), w2)
            else (Done nilError, w2)
        end
    end.

End Orchestrator.
End Orchestrator.

(** ** The current generator (generate-root-only) *)

Module Sync.

Definition sourceVariableFileName : string := "variables.tf".

(** 0600 *)
Definition targetFileMode : N := 384.

(** [fmt.Sprintf(targetVariableFilePattern, moduleName)], the pattern being
    [variables-%s.tf]. *)
Definition targetVariableFilePattern (moduleName : string) : string :=
  "variables-" +:+ moduleName +:+ ".tf".

Record VariableProcessor := mkVariableProcessor {
  workDir : string;
  targetDir : string;
  modulesDir : string
}.

Definition banner : string :=
  "# IMPORTANT: This file is synced with the " +:+ dquote
  +:+ "terraform-aws-eks-universal-addon" +:+ dquote
  +:+ " template. Any changes to this file might be overwritten upon the next release of the template.".

(** [vp.tmpl.Execute]: the banner line, then the bytes of [Variables]. *)
Definition tmpl_Execute (Variables : string) : string * option error :=
  (banner +:+ newline +:+ Variables, nilError).

Section Sync.
Context `{HclWrite} `{Filepath}.

Definition NewVariableProcessor (workDir targetDir modulesDir : string)
    : VariableProcessor :=
  mkVariableProcessor workDir targetDir (filepath_Join [workDir; modulesDir]).

(** The loop of [extractVariables]. *)
Fixpoint appendVariableBlocks (blocks : list Block) (varFile : Body) : Body :=
  match blocks with
  | [] => varFile
  | block :: rest =>
      if decide (Block_Type block ≠ "variable") then appendVariableBlocks rest varFile
      else
        let labels := Block_Labels block in
        if decide (length labels = 0) then appendVariableBlocks rest varFile
        else appendVariableBlocks rest (AppendBlock varFile block)
  end.

Definition extractVariables (ctx : Context) (filePath : string)
    : World -> (error + File) * World :=
  fun w =>
    match os_ReadFile filePath w with
    | inl err =>
        (inl (fmt_Errorf "failed to read file %q: %w" [FmtString filePath] (Some err)),
         logAt LevelError "Failed to read file"
           [("path", LogString filePath); ("error", LogErr err)] w)
    | inr src =>
        match ParseConfig src (filepath_Base filePath) with
        | inl diags =>
            let diagErr := errors_New diags in
            (inl (fmt_Errorf "failed to parse HCL file %q: %w"
                    [FmtString filePath] (Some diagErr)),
             logAt LevelError "Failed to parse HCL"
               [("path", LogString filePath); ("error", LogErr diagErr)] w)
        | inr file =>
            (inr (mkFile (appendVariableBlocks (Blocks (File_Body file))
                            (File_Body NewEmptyFile))), w)
        end
    end.

(** The description of the new block (the [if] on the description
    attribute in [syncAddonVariables]), given the raw description. *)
Definition describe (block : Block) (descriptionAtrribute : Tokens) : Outcome string :=
  let descriptionValue := Tokens_Bytes descriptionAtrribute in
  let descriptionValue := GoStrings.TrimSpace descriptionValue in
  let descriptionValue := GoStrings.Trim descriptionValue dquote in
  let descriptionValue := GoStrings.ReplaceAll descriptionValue dquote "" in
  match GetAttribute (Block_Body block) "default" with
  | Some defaultAttribute =>
      let defaultValue := Tokens_Bytes defaultAttribute in
      let defaultValue := GoStrings.TrimSpace defaultValue in
      match GetAttribute (Block_Body block) "type" with
      | None => Panicked nilDereference
      | Some typeExpr =>
          let typeAttribute := Tokens_Bytes typeExpr in
          let typeAttribute := GoStrings.TrimSpace typeAttribute in
          let typeAttribute := GoStrings.Trim typeAttribute dquote in
          let defaultValue :=
            if decide (typeAttribute = "string")
            then GoStrings.Trim defaultValue dquote else defaultValue in
          let defaultValue :=
            if decide (defaultValue = "") then dquote +:+ dquote else defaultValue in
          Done (Sprintf_description descriptionValue defaultValue)
      end
  | None => Done descriptionValue
  end.

(** One turn of the loop of [syncAddonVariables]: [None] is [continue]. *)
Definition synthesizeBlock (block : Block) : Outcome (option Block) :=
  let labels := Block_Labels block in
  match labels with
  | [] => Panicked indexOutOfRange
  | label0 :: _ =>
      if decide (label0 = "enabled") then Done None
      else
        let variable := NewBlock "variable" labels in
        match GetAttribute (Block_Body block) "type" with
        | None => Panicked nilDereference
        | Some typeExpr =>
            let body := SetAttributeRaw (Block_Body variable) "type" typeExpr in
            let body := SetAttributeRaw body "default"
                          (TokensForValue (NullVal cty_String)) in
            match GetAttribute (Block_Body block) "description" with
            | Some descriptionAtrribute =>
                match describe block descriptionAtrribute with
                | Panicked msg => Panicked msg
                | Done descriptionValue =>
                    Done (Some (Block_setBody variable
                                  (SetAttributeRaw body "description"
                                     (TokensForValue (StringVal descriptionValue)))))
                end
            | None => Done (Some (Block_setBody variable body))
            end
        end
  end.

Fixpoint synthesizeBlocks (blocks : list Block) (file : Body) : Outcome Body :=
  match blocks with
  | [] => Done file
  | block :: rest =>
      match synthesizeBlock block with
      | Panicked msg => Panicked msg
      | Done None => synthesizeBlocks rest file
      | Done (Some variable) =>
          synthesizeBlocks rest (AppendBlock (AppendNewline file) variable)
      end
  end.

(** The document [syncAddonVariables] builds before it renders it. *)
Definition synthesize (varFile : File) : Outcome File :=
  match synthesizeBlocks (Blocks (File_Body varFile)) (File_Body NewEmptyFile) with
  | Panicked msg => Panicked msg
  | Done body => Done (mkFile body)
  end.

Definition syncAddonVariables (vp : VariableProcessor) (ctx : Context)
    (moduleName : string) (varFile : File) : M (option error) :=
  fun w =>
    match synthesize varFile with
    | Panicked msg => (Panicked msg, w)
    | Done file =>
        match tmpl_Execute (File_Bytes file) with
        | (_, Some err) =>
            (Done (Some (fmt_Errorf "failed to execute template for module %q: %w"
                           [FmtString moduleName] (Some err))),
             logAt LevelError "Failed to execute template"
               [("moduleName", LogString moduleName); ("error", LogErr err)] w)
        | (buf, None) =>
            let targetPath :=
              filepath_Join [targetDir vp; targetVariableFilePattern moduleName] in
            match os_WriteFile targetPath buf targetFileMode w with
            | (Some err, w1) =>
                (Done (Some (fmt_Errorf "failed to write file %q: %w"
                               [FmtString targetPath] (Some err))),
                 logAt LevelError "Failed to write file"
                   [("path", LogString targetPath); ("error", LogErr err)] w1)
            | (None, w1) =>
                (Done nilError,
                 logAt LevelInfo "Successfully wrote addon variables"
                   [("targetPath", LogString targetPath)] w1)
            end
        end
    end.

Definition processModule (vp : VariableProcessor) (ctx : Context)
    (moduleName : string) : M (option error) :=
  fun w =>
    let sourcePath :=
      filepath_Join [modulesDir vp; moduleName; "modules"; moduleName;
                     sourceVariableFileName] in
    let w0 := logAt LevelDebug "Processing source file"
                [("sourcePath", LogString sourcePath)] w in
    match extractVariables ctx sourcePath w0 with
    | (inl err, w1) =>
        (Done (Some (fmt_Errorf "failed to parse variables: %w" [] (Some err))), w1)
    | (inr file, w1) =>
        match syncAddonVariables vp ctx moduleName file w1 with
        | (Panicked msg, w2) => (Panicked msg, w2)
        | (Done (Some syncVarErr), w2) =>
            (Done (Some (fmt_Errorf "failed to sync addon variables: %w" []
                           (Some syncVarErr))), w2)
        | (Done None, w2) => (Done nilError, w2)
        end
    end.

Definition ProcessModules (vp : VariableProcessor) (ctx : Context) : M (option error) :=
  Orchestrator.ProcessModules (processModule vp ctx) (modulesDir vp) ctx.

End Sync.
End Sync.

(** ** The legacy engine (rewrite-consumer), on documents

    [syncAddonDefaults] and the older [syncAddonVariables] are modelled from
    the parsed documents to the documents they hand to the serialiser.  The
    tokens of a declared default are shared, as pointers, with every lookup
    built from them, and hclwrite's formatter rewrites their spacing in
    place; the spacing of a token is therefore not tracked beyond the call
    that produces it, and the properties of a rewritten lookup speak of the
    types and bytes of its tokens. *)

Module Legacy.
Section Legacy.
Context `{HclWrite}.

(** The order in which Go ranges over a map is not fixed. *)
Variable rangeOrder : gmap string Tokens -> list (string * Tokens).

(** [defaults := make(map[string]hclwrite.Tokens)] and the loop filling it. *)
Fixpoint buildDefaults (blocks : list Block) (defaults : gmap string Tokens)
    : Outcome (gmap string Tokens) :=
  match blocks with
  | [] => Done defaults
  | block :: rest =>
      match Block_Labels block with
      | [] => Panicked indexOutOfRange
      | name :: _ =>
          match GetAttribute (Block_Body block) "default" with
          | Some defaultAttribute =>
              buildDefaults rest (<[name := defaultAttribute]> defaults)
          | None =>
              buildDefaults rest
                (<[name := TokensForValue (NullVal cty_String)]> defaults)
          end
      end
  end.

(** [defaults[name]]: a missing key reads as the nil token slice. *)
Definition defaultsIndex (defaults : gmap string Tokens) (name : string) : Tokens :=
  match defaults !! name with
  | Some tokens => tokens
  | None => []
  end.

(** The token sequence built for a matching attribute. *)
Definition ternary (defaults : gmap string Tokens) (name : string) : Tokens :=
  let tokens := TokensForIdentifier "var" in
  let tokens := tokens ++ [mkToken TokenDot "." 0] in
  let tokens := tokens ++ TokensForIdentifier name in
  let tokens := tokens ++ [mkToken TokenNotEqual "!=" 0] in
  let tokens := tokens ++ TokensForIdentifier "null" in
  let tokens := tokens ++ [mkToken TokenQuestion "?" 0] in
  let tokens := tokens ++ TokensForIdentifier "var" in
  let tokens := tokens ++ [mkToken TokenDot "." 0] in
  let tokens := tokens ++ TokensForIdentifier name in
  let tokens := tokens ++ [mkToken TokenColon ":" 0] in
  let lookupTokens := TokensForIdentifier "local" in
  let lookupTokens := lookupTokens ++ [mkToken TokenDot "." 0] in
  let lookupTokens := lookupTokens ++ TokensForIdentifier "addon" in
  let lookupTokens := lookupTokens ++ [mkToken TokenComma "," 0] in
  let lookupTokens := lookupTokens ++ TokensForValue (StringVal name) in
  let lookupTokens := lookupTokens ++ [mkToken TokenComma "," 0] in
  let lookupTokens := lookupTokens ++ defaultsIndex defaults name in
  tokens ++ TokensForFunctionCall "lookup" [lookupTokens].

Definition hasMarker (expr : string) : bool :=
  GoStrings.Contains expr "try" || GoStrings.Contains expr "lookup".

(** [for name, attribute := range block.Body().Attributes()]. *)
Definition rewriteAttributes (defaults : gmap string Tokens)
    (attributes : list (string * Tokens)) (body : Body) : Body :=
  foldl (fun body '(name, attribute) =>
           let expr := Tokens_Bytes attribute in
           if hasMarker expr then SetAttributeRaw body name (ternary defaults name)
           else body)
        body attributes.

Definition rewriteBlock (defaults : gmap string Tokens) (block : Block) : Block :=
  if decide (Block_Type block ≠ "module") then block
  else Block_setBody block
         (rewriteAttributes defaults (rangeOrder (Attributes (Block_Body block)))
            (Block_Body block)).

(** [for _, block := range file.Body().Blocks()]: the blocks are edited
    where they stand in the file. *)
Definition rewriteBlocks (defaults : gmap string Tokens) (body : Body) : Body :=
  (fun item =>
     match item with
     | ItemBlock block => ItemBlock (rewriteBlock defaults block)
     | _ => item
     end) <$> body.

(** What [syncAddonDefaults] does between parsing the consumer file and
    writing it back. *)
Definition rewriteLookups (varFile file : File) : Outcome File :=
  match buildDefaults (Blocks (File_Body varFile)) ∅ with
  | Panicked msg => Panicked msg
  | Done defaults => Done (mkFile (rewriteBlocks defaults (File_Body file)))
  end.

(** One turn of the loop of the older [syncAddonVariables]. *)
Definition synthesizeBlock (block : Block) : Outcome (option Block) :=
  let labels := Block_Labels block in
  match labels with
  | [] => Panicked indexOutOfRange
  | label0 :: _ =>
      if decide (label0 = "enabled") then Done None
      else
        let body := Block_Body block in
        let body :=
          match GetAttribute body "description" with
          | Some descriptionAtrribute =>
              match GetAttribute body "default" with
              | Some defaultAttribute =>
                  let defaultValue := Tokens_Bytes defaultAttribute in
                  let defaultValue := GoStrings.ReplaceAll defaultValue dquote "" in
                  let defaultValue := GoStrings.TrimSpace defaultValue in
                  let defaultValue :=
                    if decide (defaultValue = "") then dquote +:+ dquote
                    else defaultValue in
                  let descriptionValue := Tokens_Bytes descriptionAtrribute in
                  let descriptionValue :=
                    GoStrings.ReplaceAll descriptionValue dquote "" in
                  let descriptionValue := GoStrings.TrimSpace descriptionValue in
                  let descriptionValue :=
                    Sprintf_description descriptionValue defaultValue in
                  SetAttributeValue body "description" (StringVal descriptionValue)
              | None => body
              end
          | None => body
          end in
        let body := SetAttributeValue body "default" (NullVal cty_String) in
        Done (Some (Block_setBody block body))
  end.

Fixpoint synthesizeBlocks (blocks : list Block) (file : Body) : Outcome Body :=
  match blocks with
  | [] => Done file
  | block :: rest =>
      match synthesizeBlock block with
      | Panicked msg => Panicked msg
      | Done None => synthesizeBlocks rest file
      | Done (Some variable) =>
          synthesizeBlocks rest (AppendBlock (AppendNewline file) variable)
      end
  end.

Definition synthesize (varFile : File) : Outcome File :=
  match synthesizeBlocks (Blocks (File_Body varFile)) (File_Body NewEmptyFile) with
  | Panicked msg => Panicked msg
  | Done body => Done (mkFile body)
  end.

End Legacy.
End Legacy.

(** ** The command line (packages cmd and main)

    [main] sets up the root command, adds the sync command and executes.
    Cobra is taken by its contract: the flags are parsed into the
    variables bound to them, the persistent pre-run hook of the root runs
    before the run hook of the sync command, and an error from either is
    what [Execute] of the root command returns.  What is modelled is an
    invocation of the sync command with its flags parsed; what cobra prints
    itself is not.  The sync command is that of the current generator, with
    its three flags; making the processor cannot fail, its template being a
    constant that parses. *)

Module Cmd.

(** [2 * time.Minute], a [time.Duration] in nanoseconds. *)
Definition defaultCommandTimeout : Z := 2 * 60000000000.

(** [appConfig], without the root command; the logger is the level its
    handler lets through, once the pre-run hook has run. *)
Record appConfig := mkAppConfig {
  logLevel : string;
  timeout : Z;
  logger : option Level
}.

Definition newAppConfig : appConfig := mkAppConfig "info" defaultCommandTimeout None.

(** The flags of the sync command. *)
Record syncFlags := mkSyncFlags {
  flag_workDir : string;
  flag_targetDir : string;
  flag_modulesDir : string
}.

Definition defaultSyncFlags : syncFlags := mkSyncFlags "." "." ".terraform/modules".

(** [slog.Level.String] on the four named levels. *)
Definition Level_String (l : Level) : string :=
  match l with
  | LevelDebug => "DEBUG"
  | LevelInfo => "INFO"
  | LevelWarn => "WARN"
  | LevelError => "ERROR"
  end.

(** The numbers of the slog levels. *)
Definition Level_rank (l : Level) : Z :=
  match l with
  | LevelDebug => -4
  | LevelInfo => 0
  | LevelWarn => 4
  | LevelError => 8
  end.

(** What a handler with the minimum level [minimum] writes of the records
    handed to the logger. *)
Definition Enabled (minimum : Level) (r : LogRecord) : bool :=
  (Level_rank minimum <=? Level_rank (Record_Level r))%Z.

Definition written (minimum : Level) (w : World) : list LogRecord :=
  List.filter (Enabled minimum) (logged w).

(** The [switch] of [PersistentPreRunE]. *)
Definition levelOf (logLevel : string) : error + Level :=
  if decide (logLevel = "debug") then inr LevelDebug
  else if decide (logLevel = "info") then inr LevelInfo
  else if decide (logLevel = "warn" \/ logLevel = "warning") then inr LevelWarn
  else if decide (logLevel = "error") then inr LevelError
  else inl (fmt_Errorf "invalid log level: %s" [FmtString logLevel] None).

Definition PersistentPreRunE (config : appConfig) : World -> option error * appConfig * World :=
  fun w =>
    match levelOf (logLevel config) with
    | inl err => (Some err, config, w)
    | inr level =>
        (nilError, mkAppConfig (logLevel config) (timeout config) (Some level),
         logAt LevelDebug "Using log level" [("level", LogString (Level_String level))] w)
    end.

Definition GetTimeout (config : appConfig) : Z := timeout config.

(** [context.WithTimeout(context.Background(), cfg.app.timeout)].  A
    timeout that is not positive gives a context that is done from the
    start; otherwise the look at which the deadline has passed depends on
    the clock and is given.  The cancel function is deferred to the end of
    the run, so the only error of the context is the deadline's. *)
Definition CreateContextWithTimeout (config : appConfig) (deadlineLook : option nat)
    : Context :=
  if decide (GetTimeout config <= 0)%Z then mkContext (Some 0) context_DeadlineExceeded
  else mkContext deadlineLook context_DeadlineExceeded.

Section Cmd.
Context `{HclWrite} `{Filepath}.

(** [RunE] of the sync command. *)
Definition RunE (config : appConfig) (flags : syncFlags) (deadlineLook : option nat)
    : M (option error) :=
  fun w =>
    let ctx := CreateContextWithTimeout config deadlineLook in
    let processor :=
      Sync.NewVariableProcessor (flag_workDir flags) (flag_targetDir flags)
        (flag_modulesDir flags) in
    match Sync.ProcessModules processor ctx w with
    | (Panicked msg, w1) => (Panicked msg, w1)
    | (Done (Some syncErr), w1) =>
        (Done (Some syncErr),
         logAt LevelError "Variable synchronization failed" [("error", LogErr syncErr)] w1)
    | (Done None, w1) =>
        (Done nilError,
         logAt LevelInfo "Variable synchronization completed successfully" [] w1)
    end.

(** [Execute], for the sync command: the exit status of the process.  A
    panic that nothing recovers ends a Go program with status 2. *)
Definition Execute (config : appConfig) (flags : syncFlags) (deadlineLook : option nat)
    : World -> Z * World :=
  fun w =>
    match PersistentPreRunE config w with
    | (Some err, _, w1) => (1%Z, w1)
    | (None, config1, w1) =>
        match RunE config1 flags deadlineLook w1 with
        | (Panicked msg, w2) => (2%Z, w2)
        | (Done (Some err), w2) => (1%Z, w2)
        | (Done None, w2) => (0%Z, w2)
        end
    end.

End Cmd.
End Cmd.

(** ** A small instance of the given parts, and sample documents

    [plainHcl] leaves spacing alone, escapes the two bytes that end or
    escape a quoted literal, parses the sources listed in a table, and
    writes a file block by block.  It is what the examples run on; the
    theorems hold for every instance. *)

Module Samples.

Fixpoint escapePlain (s : string) : string :=
  match s with
  | EmptyString => EmptyString
  | String c s' =>
      if Ascii.eqb c (Ascii.ascii_of_nat 34) || Ascii.eqb c (Ascii.ascii_of_nat 92)
      then String (Ascii.ascii_of_nat 92) (String c (escapePlain s'))
      else String c (escapePlain s')
  end.

Fixpoint joinLabels (labels : list string) : string :=
  match labels with
  | [] => EmptyString
  | l :: ls => " " +:+ dquote +:+ l +:+ dquote +:+ joinLabels ls
  end.

Definition writeItem (item : Item Block) : string :=
  match item with
  | ItemAttr name expr => "  " +:+ name +:+ " =" +:+ Tokens_Bytes expr +:+ newline
  | ItemBlock _ => EmptyString
  | ItemTokens ts => Tokens_Bytes ts
  end.

Fixpoint writeItems (items : Body) : string :=
  match items with
  | [] => EmptyString
  | item :: items' => writeItem item +:+ writeItems items'
  end.

Definition writeTop (item : Item Block) : string :=
  match item with
  | ItemBlock b =>
      Block_Type b +:+ joinLabels (Block_Labels b) +:+ " {" +:+ newline
      +:+ writeItems (Block_Body b) +:+ "}" +:+ newline
  | _ => writeItem item
  end.

Fixpoint writeFile (items : Body) : string :=
  match items with
  | [] => EmptyString
  | item :: items' => writeTop item +:+ writeFile items'
  end.

Definition plainHcl (parses : gmap string File) : HclWrite :=
  {| format := fun ts => ts;
     format_text := fun ts => eq_refl;
     escapeQuotedStringLit := escapePlain;
     ParseConfig := fun src _ =>
       match parses !! src with
       | Some file => inr file
       | None => inl "Invalid expression"
       end;
     File_Bytes := fun file => writeFile (File_Body file) |}.

Definition plainPaths : Filepath :=
  {| filepath_Join := fun elems =>
       match elems with
       | [] => EmptyString
       | e :: es => foldl (fun acc x => acc +:+ "/" +:+ x) e es
       end;
     filepath_Base := fun path => path |}.

Definition ident (sp : nat) (name : string) : Tokens := [mkToken TokenIdent name sp].
Definition number (sp : nat) (digits : string) : Tokens :=
  [mkToken TokenNumberLit digits sp].
Definition quoted (sp : nat) (lit : string) : Tokens :=
  mkToken TokenOQuote dquote sp
    :: (if decide (lit = "") then [] else [mkToken TokenQuotedLit lit 0])
    ++ [mkToken TokenCQuote dquote 0].

Definition variableBlock (name : string) (attrs : list (string * Tokens)) : Block :=
  MkBlock "variable" [name] ((fun '(n, e) => ItemAttr n e) <$> attrs).

(** variable "name" { type = string, default = "foo", description = "desc" } *)
Definition fooBlock : Block :=
  variableBlock "name"
    [("type", ident 1 "string"); ("default", quoted 1 "foo");
     ("description", quoted 1 "desc")].

(** variable "replicas" { type = number, default = 3, description = "desc" } *)
Definition threeBlock : Block :=
  variableBlock "replicas"
    [("type", ident 1 "number"); ("default", number 1 "3");
     ("description", quoted 1 "desc")].

(** variable "suffix" { type = string, default = "", description = "desc" } *)
Definition emptyBlock : Block :=
  variableBlock "suffix"
    [("type", ident 1 "string"); ("default", quoted 1 "");
     ("description", quoted 1 "desc")].

(** variable "enabled" { type = bool, default = true } *)
Definition enabledBlock : Block :=
  variableBlock "enabled" [("type", ident 1 "bool"); ("default", ident 1 "true")].

(** variable "untyped" { default = "x", description = "desc" } *)
Definition untypedBlock : Block :=
  variableBlock "untyped"
    [("default", quoted 1 "x"); ("description", quoted 1 "desc")].

(** variable "size" { type = string, default = "10",
    description = "Size of thing" } *)
Definition sizeBlock : Block :=
  variableBlock "size"
    [("type", ident 1 "string"); ("default", quoted 1 "10");
     ("description", quoted 1 "Size of thing")].

(** variable "zones" { type = list(string), default = ["a"],
    description = "desc" } *)
Definition zonesBlock : Block :=
  variableBlock "zones"
    [("type", ident 1 "list" ++ [mkToken TokenOParen "(" 0] ++ ident 0 "string"
                ++ [mkToken TokenCParen ")" 0]);
     ("default", [mkToken TokenOBrack "[" 1] ++ quoted 0 "a"
                   ++ [mkToken TokenCBrack "]" 0]);
     ("description", quoted 1 "desc")].

End Samples.

(** ** Predicates the properties are stated with *)

(** A labelled declaration, not named "enabled", that has no type. *)
Definition untyped (block : Block) : Prop :=
  exists label0 labels,
    Block_Labels block = label0 :: labels /\
    label0 ≠ "enabled" /\
    GetAttribute (Block_Body block) "type" = None.

(** A block that [extractVariables] keeps. *)
Definition extractable (block : Block) : Prop :=
  Block_Type block = "variable" /\ Block_Labels block ≠ [].

#[global] Instance extractable_dec (block : Block) : Decision (extractable block).
Proof. unfold extractable. apply _. Defined.

(** A text without a quote byte. *)
Fixpoint quoteFree (s : string) : bool :=
  match s with
  | EmptyString => true
  | String c s' => negb (Ascii.eqb c (Ascii.ascii_of_nat 34)) && quoteFree s'
  end.

(** A directory entry the loop hands to [processModule], and one it counts
    as skipped. *)
Definition candidate (entry : DirEntry) : bool :=
  DirEntry_IsDir entry && negb (Orchestrator.skipped (DirEntry_Name entry)).

Definition skippedDirectory (entry : DirEntry) : bool :=
  DirEntry_IsDir entry && Orchestrator.skipped (DirEntry_Name entry).

Definition failed (visit : string * option error) : bool :=
  match visit.2 with
  | Some _ => true
  | None => false
  end.

(** A full pass over the entries, as the error handling design describes
    it: files are passed over, directories that do not match are skipped
    with a debug record, every other directory is handed to the processor,
    and whatever the processor returns the pass goes on with the next entry.
    [visits] lists the modules processed, with what each call returned. *)
Inductive Pass (processModule : string -> M (option error))
  : list DirEntry -> World -> list (string * option error) -> World -> Prop :=
| Pass_end w : Pass processModule [] w [] w
| Pass_ignored entry rest w visits w' :
    DirEntry_IsDir entry = false ->
    Pass processModule rest w visits w' ->
    Pass processModule (entry :: rest) w visits w'
| Pass_skipped entry rest w visits w' :
    DirEntry_IsDir entry = true ->
    Orchestrator.skipped (DirEntry_Name entry) = true ->
    Pass processModule rest
      (logAt LevelDebug "Skipping entry"
         [("module", LogString (DirEntry_Name entry));
          ("reason", LogString "does not match criteria")] w)
      visits w' ->
    Pass processModule (entry :: rest) w visits w'
| Pass_module entry rest w r w2 visits w' :
    DirEntry_IsDir entry = true ->
    Orchestrator.skipped (DirEntry_Name entry) = false ->
    processModule (DirEntry_Name entry)
      (logAt LevelInfo "Processing module"
         [("module", LogString (DirEntry_Name entry))] w) = (Done r, w2) ->
    Pass processModule rest
      (match r with
       | Some procErr =>
           logAt LevelError "Failed to process module"
             [("module", LogString (DirEntry_Name entry)); ("error", LogErr procErr)] w2
       | None => w2
       end)
      visits w' ->
    Pass processModule (entry :: rest) w ((DirEntry_Name entry, r) :: visits) w'.

(** The last record of a run that ends its loop, and the error it returns
    when the error counter is not zero. *)
Definition finishedRecord (c : Counts) : LogRecord :=
  mkLogRecord LevelInfo "Variable sync finished"
    [("processed", LogInt (Z.of_nat (processedCount c)));
     ("skipped", LogInt (Z.of_nat (skippedCount c)));
     ("errors", LogInt (Z.of_nat (errorCount c)))].

Definition aggregateError (c : Counts) : error :=
  fmt_Errorf "encountered %d error(s) during processing"
    [FmtInt (Z.of_nat (errorCount c))] None.

(** The world after the first record of a run. *)
Definition startRecord (modulesDir : string) (w : World) : World :=
  logAt LevelInfo "Starting variable sync from modules"
    [("modulesDir", LogString modulesDir)] w.

(** The display of a default in the words of the quoting policy: the
    white space around the default is stripped and, when the declared type
    is exactly string, the quotes around it too.  [typeText] is the declared
    type without the white space and the quotes around it. *)
Definition claimedDisplay (typeText defaultText : string) : string :=
  let display := GoStrings.TrimSpace defaultText in
  if decide (typeText = "string") then GoStrings.Trim display dquote else display.


(** ** Sample inputs *)

Definition sampleVarFile : File :=
  mkFile [ItemBlock Samples.enabledBlock; ItemBlock Samples.fooBlock;
          ItemBlock Samples.threeBlock; ItemBlock Samples.emptyBlock].

(** A declaration file holding [fooBlock] and [untypedBlock]. *)
Definition sampleUntypedFile : File :=
  mkFile [ItemBlock Samples.fooBlock; ItemBlock Samples.untypedBlock].

Definition sampleProcessor : Sync.VariableProcessor :=
  @Sync.NewVariableProcessor Samples.plainPaths "work" "out" "modules".

Definition neverCancelled : Context := mkContext None context_Canceled.
Definition expired : Context := mkContext (Some 0) context_DeadlineExceeded.

Definition emptyWorld : World := mkWorld ∅ ∅ ∅ [].

(** The modules directory of [sampleProcessor] holds a file, a directory
    with a dot in its name, a directory without the prefix, an addon whose
    variables file is missing, and the addon of the end-to-end scenario. *)
Definition sizeFile : File := mkFile [ItemBlock Samples.sizeBlock].
Definition sizeSource : string := Samples.writeFile (File_Body sizeFile).

Definition sampleHcl : HclWrite := Samples.plainHcl {[ sizeSource := sizeFile ]}.

Definition sampleEntries : list DirEntry :=
  [mkDirEntry "README.md" false; mkDirEntry "addon.x" true; mkDirEntry "vpc" true;
   mkDirEntry "addon-bad" true; mkDirEntry "addon-x" true].

Definition sampleWorld : World :=
  mkWorld {[ "work/modules" := inr sampleEntries ]}
          {[ "work/modules/addon-x/modules/addon-x/variables.tf" := inr sizeSource ]}
          ∅
          [].

(** The same directory, before which comes an addon that declares a
    variable without a type. *)
Definition untypedSource : string := Samples.writeFile (File_Body sampleUntypedFile).

Definition untypedHcl : HclWrite :=
  Samples.plainHcl {[ sizeSource := sizeFile; untypedSource := sampleUntypedFile ]}.

Definition untypedWorld : World :=
  mkWorld {[ "work/modules" := inr (mkDirEntry "addon-a" true :: sampleEntries) ]}
          {[ "work/modules/addon-a/modules/addon-a/variables.tf" := inr untypedSource;
             "work/modules/addon-x/modules/addon-x/variables.tf" := inr sizeSource ]}
          ∅
          [].

(** The modules directory exists and is empty. *)
Definition emptyDirWorld : World := mkWorld {[ "work/modules" := inr [] ]} ∅ ∅ [].

(** The consumer document
    module "addon" { source = "./modules/addon", size = try(var.size, "10"),
    count = try(var.replicas, 1) }, where [size] is declared (in [sizeFile])
    and [count] is not. *)
Definition tryCall (argument : Tokens) (fallback : Tokens) : Tokens :=
  [mkToken TokenIdent "try" 1; mkToken TokenOParen "(" 0;
   mkToken TokenIdent "var" 0; mkToken TokenDot "." 0]
  ++ argument ++ [mkToken TokenComma "," 0] ++ fallback
  ++ [mkToken TokenCParen ")" 0].

Definition sampleConsumer : File :=
  mkFile [ItemBlock
            (MkBlock "module" ["addon"]
               [ItemAttr "source" (Samples.quoted 1 "./modules/addon");
                ItemAttr "size"
                  (tryCall (Samples.ident 0 "size") (Samples.quoted 1 "10"));
                ItemAttr "count"
                  (tryCall (Samples.ident 0 "replicas") (Samples.number 1 "1"))])].

(** The types and bytes of the tokens of
    var.NAME != null ? var.NAME : lookup(local.addon, "NAME", DEFAULT). *)
Definition ternaryText (name escaped : string) (defaultText : list (TokenType * string))
    : list (TokenType * string) :=
  [(TokenIdent, "var"); (TokenDot, "."); (TokenIdent, name); (TokenNotEqual, "!=");
   (TokenIdent, "null"); (TokenQuestion, "?"); (TokenIdent, "var"); (TokenDot, ".");
   (TokenIdent, name); (TokenColon, ":"); (TokenIdent, "lookup"); (TokenOParen, "(");
   (TokenIdent, "local"); (TokenDot, "."); (TokenIdent, "addon"); (TokenComma, ",");
   (TokenOQuote, dquote)]
  ++ (if decide (String.length escaped = 0) then [] else [(TokenQuotedLit, escaped)])
  ++ [(TokenCQuote, dquote); (TokenComma, ",")]
  ++ defaultText ++ [(TokenCParen, ")")].

(** The modules directory cannot be listed. *)
Definition lockedWorld : World := mkWorld {[ "work/modules" := inl EACCES ]} ∅ ∅ [].

(** The deadline passes between the look for the entry before [addon-x]
    and the look for [addon-x]. *)
Definition expiresAtFour : Context := mkContext (Some 4) context_DeadlineExceeded.

(** The deadline passes after the last look. *)
Definition expiresLate : Context := mkContext (Some 5) context_DeadlineExceeded.

(** variable "token" { type = string, sensitive = true,
    validation { condition = true } } *)
Definition guardedBlock : Block :=
  MkBlock "variable" ["token"]
    [ItemAttr "type" (Samples.ident 1 "string");
     ItemAttr "sensitive" (Samples.ident 1 "true");
     ItemBlock (MkBlock "validation" []
                  [ItemAttr "condition" (Samples.ident 1 "true")])].

(** variable "plain" { type = string, description = "say "hi"" } with the
    inner quotes escaped in the source, and no default. *)
Definition plainBlock : Block :=
  Samples.variableBlock "plain"
    [("type", Samples.ident 1 "string");
     ("description",
      Samples.quoted 1 ("say " +:+ String (Ascii.ascii_of_nat 92) dquote +:+ "hi"
                        +:+ String (Ascii.ascii_of_nat 92) dquote))].

(** The consumer document
    module "addon" { region = "country", size = var.size } and, before it,
    locals { flavour = try(var.flavour, "plain") }: a quoted literal that
    happens to hold a marker, an attribute without one, and a marker
    outside a module block. *)
Definition countryConsumer : File :=
  mkFile [ItemBlock
            (MkBlock "locals" []
               [ItemAttr "flavour"
                  (tryCall (Samples.ident 0 "flavour") (Samples.quoted 1 "plain"))]);
          ItemBlock
            (MkBlock "module" ["addon"]
               [ItemAttr "region" (Samples.quoted 1 "country");
                ItemAttr "size"
                  ([mkToken TokenIdent "var" 1; mkToken TokenDot "." 0]
                   ++ Samples.ident 0 "size")])].

(** variable "size" { type = string }: declared, without a default. *)
Definition bareSizeFile : File :=
  mkFile [ItemBlock (Samples.variableBlock "size" [("type", Samples.ident 1 "string")])].

(** The flags that make the sync command work on the sample worlds, and a
    configuration with a level the pre-run hook does not know. *)
Definition sampleFlags : Cmd.syncFlags := Cmd.mkSyncFlags "work" "out" "modules".

Definition loudConfig : Cmd.appConfig :=
  Cmd.mkAppConfig "INFO" Cmd.defaultCommandTimeout None.

Definition hurriedConfig : Cmd.appConfig := Cmd.mkAppConfig "info" 0 None.

(** A world in which every candidate can be processed. *)
Definition quietWorld : World :=
  mkWorld {[ "work/modules" := inr [mkDirEntry "README.md" false;
                                    mkDirEntry "vpc" true;
                                    mkDirEntry "addon-x" true] ]}
          {[ "work/modules/addon-x/modules/addon-x/variables.tf" := inr sizeSource ]}
          ∅
          [].

(** The sample world on a device that takes nine more bytes. *)
Definition fullDiskWorld : World :=
  mkWorld (dirs sampleWorld) (files sampleWorld)
          {[ "out/variables-addon-x.tf" := (9, ENOSPC) ]} [].

(** No record of level error. *)
Definition errorFree (w : World) : Prop :=
  Forall (fun r => Record_Level r ≠ LevelError) (logged w).

(** An addon whose variables file declares only [enabled], beside a block
    that is not a variable. *)
Definition enabledOnlyFile : File :=
  mkFile [ItemBlock (MkBlock "locals" [] []); ItemBlock Samples.enabledBlock].
Definition enabledOnlySource : string := Samples.writeFile (File_Body enabledOnlyFile).

Definition enabledOnlyHcl : HclWrite :=
  Samples.plainHcl {[ enabledOnlySource := enabledOnlyFile ]}.

Definition enabledOnlyWorld : World :=
  mkWorld {[ "work/modules" := inr [mkDirEntry "addon-x" true] ]}
          {[ "work/modules/addon-x/modules/addon-x/variables.tf" := inr enabledOnlySource ]}
          ∅
          [].

(** * Properties *)

(** ** Bodies *)

Section BodyFacts.
Implicit Types (b : Body) (name : string) (tokens : Tokens).

Lemma GetAttribute_app b1 b2 name :
  GetAttribute (b1 ++ b2) name =
  match GetAttribute b1 name with
  | Some e => Some e
  | None => GetAttribute b2 name
  end.
Proof.
  induction b1 as [|[n e|blk|ts] b1 IH]; simpl; try done.
  case_decide; done.
Qed.

Lemma GetAttribute_replace_eq b name tokens :
  is_Some (GetAttribute b name) ->
  GetAttribute (replaceAttribute b name tokens) name = Some tokens.
Proof.
  induction b as [|[n e|blk|ts] b IH]; simpl; intros Hs.
  - by destruct Hs.
  - case_decide; simpl; case_decide; try done. by apply IH.
  - by apply IH.
  - by apply IH.
Qed.

Lemma GetAttribute_replace_ne b name other tokens :
  name ≠ other ->
  GetAttribute (replaceAttribute b name tokens) other = GetAttribute b other.
Proof.
  intros Hne. induction b as [|[n e|blk|ts] b IH]; simpl; try done.
  case_decide; simpl; case_decide; subst; try done.
Qed.

Lemma GetAttribute_Set_eq b name tokens :
  GetAttribute (SetAttributeRaw b name tokens) name = Some tokens.
Proof.
  unfold SetAttributeRaw. destruct (GetAttribute b name) eqn:E.
  - apply GetAttribute_replace_eq. by rewrite E.
  - rewrite GetAttribute_app, E. simpl. by case_decide.
Qed.

Lemma GetAttribute_Set_ne b name other tokens :
  name ≠ other ->
  GetAttribute (SetAttributeRaw b name tokens) other = GetAttribute b other.
Proof.
  intros Hne. unfold SetAttributeRaw. destruct (GetAttribute b name) eqn:E.
  - by apply GetAttribute_replace_ne.
  - rewrite GetAttribute_app. destruct (GetAttribute b other); simpl; try done.
    by case_decide.
Qed.

Lemma Blocks_app b1 b2 : Blocks (b1 ++ b2) = Blocks b1 ++ Blocks b2.
Proof.
  induction b1 as [|[n e|blk|ts] b1 IH]; simpl; try done. by rewrite IH.
Qed.

Lemma Blocks_append_pair b blk :
  Blocks (AppendBlock (AppendNewline b) blk) = Blocks b ++ [blk].
Proof.
  unfold AppendBlock, AppendNewline. rewrite !Blocks_app. simpl.
  by rewrite app_nil_r.
Qed.

End BodyFacts.

(** ** What the synthesizers emit *)

Section Emitted.
Context `{HclWrite}.

(** Every block of the current generator's document comes from one turn of
    its loop. *)
Ltac emitted_by_induction turn :=
  let blocks := fresh "blocks" in
  let block := fresh "block" in
  let rest := fresh "rest" in
  let IH := fresh "IH" in
  let Hturn := fresh "Hturn" in
  let Hfile := fresh "Hfile" in
  let Hrun := fresh "Hrun" in
  let E := fresh "E" in
  intros blocks;
  induction blocks as [|block rest IH]; simpl; intros file out Hturn Hfile Hrun;
  [ by inversion Hrun; subst
  | destruct (turn block) as [[variable|]|msg] eqn:E; try done;
    (eapply IH; [| |exact Hrun];
     [ intros b v Hb; apply Hturn; by right
     | first
         [ done
         | rewrite Blocks_append_pair; apply Forall_app; split; [done|];
           constructor; [|constructor]; eapply Hturn; [|exact E]; by left ] ]) ].

Lemma Sync_synthesizeBlocks_emitted (P : Block -> Prop) :
  forall (blocks : list Block) (file out : Body),
    (forall block variable,
        block ∈ blocks -> Sync.synthesizeBlock block = Done (Some variable) ->
        P variable) ->
    Forall P (Blocks file) ->
    Sync.synthesizeBlocks blocks file = Done out ->
    Forall P (Blocks out).
Proof. emitted_by_induction Sync.synthesizeBlock. Qed.

Lemma Legacy_synthesizeBlocks_emitted (P : Block -> Prop) :
  forall (blocks : list Block) (file out : Body),
    (forall block variable,
        block ∈ blocks -> Legacy.synthesizeBlock block = Done (Some variable) ->
        P variable) ->
    Forall P (Blocks file) ->
    Legacy.synthesizeBlocks blocks file = Done out ->
    Forall P (Blocks out).
Proof. emitted_by_induction Legacy.synthesizeBlock. Qed.

(** Both synthesizers lift a property of their turns to their document. *)
Lemma synthesize_emitted (P : Block -> Prop) (varFile file : File) :
  (forall block variable,
      Sync.synthesizeBlock block = Done (Some variable) -> P variable) ->
  (forall block variable,
      Legacy.synthesizeBlock block = Done (Some variable) -> P variable) ->
  Sync.synthesize varFile = Done file \/ Legacy.synthesize varFile = Done file ->
  Forall P (Blocks (File_Body file)).
Proof.
  intros HS HL [Hrun|Hrun].
  - unfold Sync.synthesize in Hrun.
    destruct (Sync.synthesizeBlocks _ _) as [out|] eqn:E; [|done].
    inversion Hrun; subst; simpl.
    eapply Sync_synthesizeBlocks_emitted; [| |exact E]; [eauto|constructor].
  - unfold Legacy.synthesize in Hrun.
    destruct (Legacy.synthesizeBlocks _ _) as [out|] eqn:E; [|done].
    inversion Hrun; subst; simpl.
    eapply Legacy_synthesizeBlocks_emitted; [| |exact E]; [eauto|constructor].
Qed.

Lemma Sync_synthesizeBlock_labels (block variable : Block) :
  Sync.synthesizeBlock block = Done (Some variable) ->
  Block_Labels variable = Block_Labels block /\
  head (Block_Labels block) ≠ Some "enabled".
Proof.
  unfold Sync.synthesizeBlock.
  destruct (Block_Labels block) as [|label0 labels] eqn:El; [done|].
  case_decide as Hen; [done|].
  destruct (GetAttribute (Block_Body block) "type"); [|done].
  destruct (GetAttribute (Block_Body block) "description").
  - destruct (Sync.describe _ _); [|done].
    intros [= <-]. simpl. split; [done|]. by intros [= ->].
  - intros [= <-]. simpl. split; [done|]. by intros [= ->].
Qed.

Lemma Legacy_synthesizeBlock_labels (block variable : Block) :
  Legacy.synthesizeBlock block = Done (Some variable) ->
  Block_Labels variable = Block_Labels block /\
  head (Block_Labels block) ≠ Some "enabled".
Proof.
  unfold Legacy.synthesizeBlock.
  destruct (Block_Labels block) as [|label0 labels] eqn:El; [done|].
  case_decide as Hen; [done|].
  intros [= <-]. simpl. rewrite El. split; [done|]. by intros [= ->].
Qed.

Lemma TokensForValue_null_text :
  tokenText <$> TokensForValue (NullVal cty_String) = [(TokenIdent, "null")].
Proof. unfold TokensForValue. by rewrite format_text. Qed.

End Emitted.

(** ** The exclusion and the nulled default *)

(** C4. Whatever the extracted declarations are, a document that either
    synthesizer produces has no block whose name (first label) is
    "enabled". *)
Theorem enabled_never_synthesized `{HclWrite} (varFile file : File) :
  Sync.synthesize varFile = Done file \/ Legacy.synthesize varFile = Done file ->
  Forall (fun block => head (Block_Labels block) ≠ Some "enabled")
         (Blocks (File_Body file)).
Proof.
  apply synthesize_emitted.
  - intros block variable Hturn.
    destruct (Sync_synthesizeBlock_labels _ _ Hturn) as [-> Hne]. exact Hne.
  - intros block variable Hturn.
    destruct (Legacy_synthesizeBlock_labels _ _ Hturn) as [-> Hne]. exact Hne.
Qed.

Lemma enabled_never_synthesized_witness :
  exists file : File,
    @Sync.synthesize (Samples.plainHcl ∅) sampleVarFile = Done file /\
    length (Blocks (File_Body file)) = 3 /\
    Forall (fun block => head (Block_Labels block) ≠ Some "enabled")
           (Blocks (File_Body file)).
Proof.
  eexists. split; [vm_compute; reflexivity|]. split; [reflexivity|].
  apply (@enabled_never_synthesized (Samples.plainHcl ∅) sampleVarFile).
  left. vm_compute. reflexivity.
Defined.

(** C5. In a document that either synthesizer produces, every block has a
    default attribute, and it is the null literal: the tokens hclwrite
    builds for a null value, one identifier reading null.  Nothing is asked
    of the default of the source block. *)
Theorem default_always_null `{HclWrite} (varFile file : File) :
  Sync.synthesize varFile = Done file \/ Legacy.synthesize varFile = Done file ->
  Forall (fun block =>
            exists tokens,
              GetAttribute (Block_Body block) "default" = Some tokens /\
              tokens = TokensForValue (NullVal cty_String) /\
              tokenText <$> tokens = [(TokenIdent, "null")])
         (Blocks (File_Body file)).
Proof.
  apply synthesize_emitted.
  - intros block variable. unfold Sync.synthesizeBlock.
    destruct (Block_Labels block) as [|label0 labels]; [done|].
    case_decide; [done|].
    destruct (GetAttribute (Block_Body block) "type") as [typeExpr|]; [|done].
    destruct (GetAttribute (Block_Body block) "description").
    + destruct (Sync.describe _ _); [|done]. intros [= <-]. simpl.
      eexists. split; [reflexivity|]. split; [done|].
      apply TokensForValue_null_text.
    + intros [= <-]. simpl. eexists. split; [reflexivity|]. split; [done|].
      apply TokensForValue_null_text.
  - intros block variable. unfold Legacy.synthesizeBlock.
    destruct (Block_Labels block) as [|label0 labels]; [done|].
    case_decide; [done|]. intros [= <-]. simpl. unfold SetAttributeValue.
    eexists. split; [apply GetAttribute_Set_eq|]. split; [done|].
    apply TokensForValue_null_text.
Qed.

Lemma default_always_null_witness :
  exists file : File,
    @Legacy.synthesize (Samples.plainHcl ∅) sampleVarFile = Done file /\
    length (Blocks (File_Body file)) = 3 /\
    Forall (fun block =>
              exists tokens,
                GetAttribute (Block_Body block) "default" = Some tokens /\
                tokens = @TokensForValue (Samples.plainHcl ∅) (NullVal cty_String) /\
                tokenText <$> tokens = [(TokenIdent, "null")])
           (Blocks (File_Body file)).
Proof.
  eexists. split; [vm_compute; reflexivity|]. split; [reflexivity|].
  apply (@default_always_null (Samples.plainHcl ∅) sampleVarFile).
  right. vm_compute. reflexivity.
Defined.

(** ** Go's strings on small inputs *)

Example TrimSpace_sample :
  GoStrings.TrimSpace ("  " +:+ newline +:+ " a b " +:+ newline) = "a b".
Proof. reflexivity. Qed.

(** White space beyond ASCII goes too (a no-break space, an em space, an
    ideographic space); a byte that encodes no rune stays. *)
Example TrimSpace_runes :
  GoStrings.TrimSpace (GoStrings.EncodeRune 0xA0 +:+ " a " +:+ GoStrings.EncodeRune 0x2003
                       +:+ GoStrings.EncodeRune 0x3000) = "a"
  /\ GoStrings.TrimSpace (String (Ascii.ascii_of_N 0xA0) "a")
     = String (Ascii.ascii_of_N 0xA0) "a"
  /\ GoStrings.TrimSpace ("a" +:+ String (Ascii.ascii_of_N 0xC2) EmptyString)
     = "a" +:+ String (Ascii.ascii_of_N 0xC2) EmptyString.
Proof. repeat split; reflexivity. Qed.

Example Trim_sample :
  GoStrings.Trim (dquote +:+ dquote +:+ "a" +:+ dquote +:+ "b" +:+ dquote) dquote
  = "a" +:+ dquote +:+ "b".
Proof. reflexivity. Qed.

Example ReplaceAll_sample :
  GoStrings.ReplaceAll (dquote +:+ "a" +:+ dquote +:+ "b" +:+ dquote) dquote "" = "ab"
  /\ GoStrings.ReplaceAll "banana" "ana" "o" = "bona"
  /\ GoStrings.ReplaceAll "ab" "" "-" = "-a-b-".
Proof. repeat split; reflexivity. Qed.

Example Contains_sample :
  GoStrings.Contains "lookup(var.x, 1)" "lookup" = true
  /\ GoStrings.Contains "entry" "try" = true
  /\ GoStrings.Contains "var.x" "try" = false
  /\ GoStrings.Contains "addon.x" "." = true.
Proof. repeat split; reflexivity. Qed.

Example HasPrefix_sample :
  GoStrings.HasPrefix "addon-x" "addon" = true
  /\ GoStrings.HasPrefix "add" "addon" = false
  /\ GoStrings.HasPrefix "my-addon" "addon" = false.
Proof. repeat split; reflexivity. Qed.

(** ** Go's strings on the spaces that precede an expression *)

Section StringFacts.

Lemma append_cons (a : ascii) (s t : string) : String a s +:+ t = String a (s +:+ t).
Proof. reflexivity. Qed.

Lemma append_empty (s : string) : s +:+ "" = s.
Proof. induction s as [|a s IH]; [done|]. by rewrite append_cons, IH. Qed.

Lemma rev_app_twice (s t u : string) :
  String.rev_app (String.rev_app s t) u = String.rev_app t (s +:+ u).
Proof.
  revert t u. induction s as [|a s IH]; intros t u; [done|].
  cbn [String.rev_app]. by rewrite IH.
Qed.

Lemma rev_involutive (s : string) : String.rev (String.rev s) = s.
Proof. unfold String.rev. rewrite rev_app_twice. apply append_empty. Qed.

Lemma rev_snoc (s : string) (c : ascii) :
  String.rev (s +:+ String c EmptyString) = String c (String.rev s).
Proof.
  unfold String.rev. generalize EmptyString at 2 3.
  induction s as [|a s IH]; intros t; [done|].
  rewrite append_cons. cbn [String.rev_app]. by rewrite IH.
Qed.

Lemma dropRunes_spaces (n : nat) (s : string) :
  GoStrings.dropRunes (GoStrings.EncodeRune <$> GoStrings.whiteSpace) (spaces n +:+ s) 0
  = GoStrings.dropRunes (GoStrings.EncodeRune <$> GoStrings.whiteSpace) s 0.
Proof.
  induction n as [|n IH]; [done|].
  change (spaces (S n) +:+ s) with (String " " (spaces n +:+ s)).
  cbn [GoStrings.dropRunes].
  replace (GoStrings.runeWidth _ (String " " (spaces n +:+ s))) with 1; [exact IH|].
  by destruct (spaces n +:+ s).
Qed.

Lemma TrimSpace_spaces (n : nat) (s : string) :
  GoStrings.TrimSpace (spaces n +:+ s) = GoStrings.TrimSpace s.
Proof. unfold GoStrings.TrimSpace. by rewrite dropRunes_spaces. Qed.

Lemma ReplaceAll_dquote_spaces (n : nat) (s : string) :
  GoStrings.ReplaceAll (spaces n +:+ s) dquote ""
  = spaces n +:+ GoStrings.ReplaceAll s dquote "".
Proof.
  unfold GoStrings.ReplaceAll. simpl.
  induction n as [|n IH]; simpl; [done|]. by rewrite IH.
Qed.

Lemma TrimRightFunc_keep (f : ascii -> bool) (s : string) (c : ascii) :
  f c = false ->
  GoStrings.TrimRightFunc f (s +:+ String c EmptyString) = s +:+ String c EmptyString.
Proof.
  intros Hc. induction s as [|a s IH]; simpl.
  - by rewrite Hc.
  - rewrite IH. by destruct s.
Qed.

Lemma TrimRightFunc_drop (f : ascii -> bool) (s : string) (c : ascii) :
  f c = true ->
  GoStrings.TrimRightFunc f (s +:+ String c EmptyString) = GoStrings.TrimRightFunc f s.
Proof.
  intros Hc. induction s as [|a s IH]; simpl.
  - by rewrite Hc.
  - by rewrite IH.
Qed.

Lemma inCutset_dquote (c : ascii) :
  GoStrings.inCutset dquote c = Ascii.eqb c (Ascii.ascii_of_nat 34).
Proof. simpl. apply orb_false_r. Qed.

Lemma TrimRightFunc_quoteFree (f : ascii -> bool) (s : string) :
  (forall c, f c = Ascii.eqb c (Ascii.ascii_of_nat 34)) ->
  quoteFree s = true ->
  GoStrings.TrimRightFunc f s = s.
Proof.
  intros Hf. induction s as [|a s IH]; cbn [GoStrings.TrimRightFunc quoteFree];
    [done|].
  intros [Ha Hs]%andb_true_iff. rewrite (IH Hs).
  destruct s; [|done]. rewrite Hf. by apply negb_true_iff in Ha as ->.
Qed.

(** A quoted literal after spaces: [TrimSpace] leaves the quotes and what
    is between them. *)
Lemma TrimSpace_quoted (n : nat) (lit : string) :
  GoStrings.TrimSpace (spaces n +:+ dquote +:+ lit +:+ dquote)
  = dquote +:+ lit +:+ dquote.
Proof.
  rewrite TrimSpace_spaces. unfold GoStrings.TrimSpace.
  change (dquote +:+ lit +:+ dquote)
    with (String (Ascii.ascii_of_nat 34) lit +:+ String (Ascii.ascii_of_nat 34) EmptyString).
  change (GoStrings.dropRunes _ (String (Ascii.ascii_of_nat 34) lit +:+ _) 0)
    with (String (Ascii.ascii_of_nat 34) lit +:+ String (Ascii.ascii_of_nat 34) EmptyString).
  cbv zeta. rewrite rev_snoc.
  change (GoStrings.dropRunes _ (String (Ascii.ascii_of_nat 34) ?t) 0)
    with (String (Ascii.ascii_of_nat 34) t).
  by rewrite <- rev_snoc, rev_involutive.
Qed.

(** [Trim] takes the quotes off a quoted literal that has none inside. *)
Lemma Trim_quoted (lit : string) :
  quoteFree lit = true ->
  GoStrings.Trim (dquote +:+ lit +:+ dquote) dquote = lit.
Proof.
  intros Hlit. destruct lit as [|a lit]; [reflexivity|].
  unfold GoStrings.Trim, GoStrings.TrimFunc.
  change (dquote +:+ String a lit +:+ dquote)
    with (String (Ascii.ascii_of_nat 34) (String a (lit +:+ dquote))).
  cbn [GoStrings.TrimLeftFunc]. rewrite !inCutset_dquote.
  change (Ascii.eqb (Ascii.ascii_of_nat 34) (Ascii.ascii_of_nat 34)) with true.
  cbn iota. pose proof Hlit as Hends. cbn [quoteFree] in Hends.
  apply andb_true_iff in Hends as [Ha _]. apply negb_true_iff in Ha. rewrite Ha.
  change (String a (lit +:+ dquote))
    with (String a lit +:+ String (Ascii.ascii_of_nat 34) EmptyString).
  rewrite TrimRightFunc_drop by reflexivity.
  apply TrimRightFunc_quoteFree; [apply inCutset_dquote|done].
Qed.

Lemma prefix_dquote (a : ascii) (s : string) :
  String.prefix dquote (String a s) = Ascii.eqb a (Ascii.ascii_of_nat 34).
Proof.
  unfold dquote. cbn [String.prefix].
  destruct (Ascii.ascii_dec (Ascii.ascii_of_nat 34) a) as [<-|Hne].
  - by destruct s.
  - symmetry. apply Ascii.eqb_neq. congruence.
Qed.

Lemma ReplaceAll_quoteFree (s : string) :
  quoteFree s = true -> GoStrings.ReplaceAll s dquote "" = s.
Proof.
  change (GoStrings.ReplaceAll s dquote "") with (GoStrings.replaceFrom dquote "" s 0).
  induction s as [|a s IH]; cbn [GoStrings.replaceFrom quoteFree]; [done|].
  intros [Ha Hs]%andb_true_iff. apply negb_true_iff in Ha.
  by rewrite prefix_dquote, Ha, (IH Hs).
Qed.

End StringFacts.

(** ** The description of a synthesized block *)

(** C1, as stated, fails in two places.  The older synthesizer does not
    read the type: it takes every quote out of the default, so the default
    ["a"] of a list(string) is shown as [a], where stripping the white space
    around it leaves it as written.  The current synthesizer reads the type
    of every declaration: one that has a description and a default and no
    type makes it panic. *)
Lemma description_suffix_counterexample :
  (exists (variable : Block) (t v : Tokens),
      GetAttribute (Block_Body Samples.zonesBlock) "type" = Some t /\
      GoStrings.Trim (GoStrings.TrimSpace (Tokens_Bytes t)) dquote = "list(string)" /\
      GetAttribute (Block_Body Samples.zonesBlock) "default" = Some v /\
      Tokens_Bytes v = " [" +:+ dquote +:+ "a" +:+ dquote +:+ "]" /\
      @Legacy.synthesizeBlock (Samples.plainHcl ∅) Samples.zonesBlock
      = Done (Some variable) /\
      GetAttribute (Block_Body variable) "description"
      = Some (@TokensForValue (Samples.plainHcl ∅)
                (StringVal "desc Defaults to `[a]`.")) /\
      GetAttribute (Block_Body variable) "description"
      ≠ Some (@TokensForValue (Samples.plainHcl ∅)
                (StringVal
                   (Sprintf_description "desc"
                      (claimedDisplay
                         (GoStrings.Trim (GoStrings.TrimSpace (Tokens_Bytes t)) dquote)
                         (Tokens_Bytes v)))))) /\
  GetAttribute (Block_Body Samples.untypedBlock) "description"
  = Some (Samples.quoted 1 "desc") /\
  GetAttribute (Block_Body Samples.untypedBlock) "default"
  = Some (Samples.quoted 1 "x") /\
  @Sync.synthesizeBlock (Samples.plainHcl ∅) Samples.untypedBlock
  = Panicked nilDereference.
Proof.
  split; [|by repeat split].
  eexists _, _, _. split; [reflexivity|]. split; [reflexivity|].
  split; [reflexivity|]. split; [reflexivity|]. split; [reflexivity|].
  split; [vm_compute; reflexivity|]. vm_compute. discriminate.
Qed.

(** C1, amended. For a declaration with a description and a default, the
    description of the emitted block is the string value made of the
    description text, " Defaults to `", the display of the default, and
    "`.", where an empty display is replaced by a pair of quotes.  In the
    current synthesizer, for a declaration that also has a type, the display
    is the default's text with the surrounding white space stripped and,
    when the type reads string, the quotes around it stripped too.  In the
    older synthesizer the display is the default's text with every quote
    taken out and then the surrounding white space stripped, whatever the
    type. *)
Theorem description_suffix `{HclWrite} (block : Block) (label0 : string)
    (labels : list string) (d v : Tokens) :
  Block_Labels block = label0 :: labels ->
  label0 ≠ "enabled" ->
  GetAttribute (Block_Body block) "description" = Some d ->
  GetAttribute (Block_Body block) "default" = Some v ->
  let sentinel (display : string) :=
    if decide (display = "") then dquote +:+ dquote else display in
  (forall t : Tokens,
      GetAttribute (Block_Body block) "type" = Some t ->
      let typeText := GoStrings.Trim (GoStrings.TrimSpace (Tokens_Bytes t)) dquote in
      let display := sentinel (claimedDisplay typeText (Tokens_Bytes v)) in
      let text :=
        GoStrings.ReplaceAll
          (GoStrings.Trim (GoStrings.TrimSpace (Tokens_Bytes d)) dquote) dquote "" in
      exists variable,
        Sync.synthesizeBlock block = Done (Some variable) /\
        GetAttribute (Block_Body variable) "description"
        = Some (TokensForValue
                  (StringVal (text +:+ " Defaults to `" +:+ display +:+ "`.")))) /\
  (let display :=
     sentinel (GoStrings.TrimSpace (GoStrings.ReplaceAll (Tokens_Bytes v) dquote "")) in
   let text := GoStrings.TrimSpace (GoStrings.ReplaceAll (Tokens_Bytes d) dquote "") in
   exists variable,
     Legacy.synthesizeBlock block = Done (Some variable) /\
     GetAttribute (Block_Body variable) "description"
     = Some (TokensForValue
               (StringVal (text +:+ " Defaults to `" +:+ display +:+ "`.")))).
Proof.
  intros Hl Hen Hd Hv. simpl. split.
  - intros t Ht. unfold Sync.synthesizeBlock, Sync.describe, claimedDisplay.
    rewrite Hl, Ht, Hd, Hv.
    case_decide; [done|]. eexists. split; [reflexivity|].
    simpl. reflexivity.
  - unfold Legacy.synthesizeBlock. rewrite Hl, Hd, Hv.
    case_decide; [done|]. eexists. split; [reflexivity|].
    simpl. unfold SetAttributeValue.
    rewrite GetAttribute_Set_ne by done. apply GetAttribute_Set_eq.
Qed.

Lemma description_suffix_witness :
  let hcl := Samples.plainHcl ∅ in
  ((exists variable,
       @Sync.synthesizeBlock hcl Samples.fooBlock = Done (Some variable) /\
       GetAttribute (Block_Body variable) "description"
       = Some (@TokensForValue hcl (StringVal "desc Defaults to `foo`."))) /\
   (exists variable,
       @Legacy.synthesizeBlock hcl Samples.fooBlock = Done (Some variable) /\
       GetAttribute (Block_Body variable) "description"
       = Some (@TokensForValue hcl (StringVal "desc Defaults to `foo`.")))) /\
  ((exists variable,
       @Sync.synthesizeBlock hcl Samples.threeBlock = Done (Some variable) /\
       GetAttribute (Block_Body variable) "description"
       = Some (@TokensForValue hcl (StringVal "desc Defaults to `3`."))) /\
   (exists variable,
       @Legacy.synthesizeBlock hcl Samples.threeBlock = Done (Some variable) /\
       GetAttribute (Block_Body variable) "description"
       = Some (@TokensForValue hcl (StringVal "desc Defaults to `3`.")))).
Proof.
  split.
  - destruct (@description_suffix (Samples.plainHcl ∅) Samples.fooBlock "name" []
                (Samples.quoted 1 "desc") (Samples.quoted 1 "foo")
                eq_refl ltac:(discriminate) eq_refl eq_refl) as [Hcurrent Hlegacy].
    split; [exact (Hcurrent (Samples.ident 1 "string") eq_refl)|exact Hlegacy].
  - destruct (@description_suffix (Samples.plainHcl ∅) Samples.threeBlock "replicas" []
                (Samples.quoted 1 "desc") (Samples.number 1 "3")
                eq_refl ltac:(discriminate) eq_refl eq_refl) as [Hcurrent Hlegacy].
    split; [exact (Hcurrent (Samples.ident 1 "number") eq_refl)|exact Hlegacy].
Defined.

(** The quoting policy on literals.  For a declaration of type string whose
    default is a quoted literal and whose description is a quoted literal,
    neither with a quote inside, the description names the default without
    its quotes. *)
Lemma quoted_default_shown_unquoted `{HclWrite} (block : Block) (label0 : string)
    (labels : list string) (d v t : Tokens) (k n m : nat) (lit desc : string) :
  Block_Labels block = label0 :: labels ->
  label0 ≠ "enabled" ->
  GetAttribute (Block_Body block) "type" = Some t ->
  Tokens_Bytes t = spaces k +:+ "string" ->
  GetAttribute (Block_Body block) "default" = Some v ->
  Tokens_Bytes v = spaces n +:+ dquote +:+ lit +:+ dquote ->
  GetAttribute (Block_Body block) "description" = Some d ->
  Tokens_Bytes d = spaces m +:+ dquote +:+ desc +:+ dquote ->
  quoteFree lit = true -> quoteFree desc = true -> lit ≠ "" ->
  exists variable,
    Sync.synthesizeBlock block = Done (Some variable) /\
    GetAttribute (Block_Body variable) "description"
    = Some (TokensForValue (StringVal (desc +:+ " Defaults to `" +:+ lit +:+ "`."))).
Proof.
  intros Hl Hen Ht Htb Hv Hvb Hd Hdb Hlit Hdesc Hne.
  unfold Sync.synthesizeBlock, Sync.describe.
  rewrite Hl, Ht, Hd, Hv, Htb, Hvb, Hdb.
  rewrite !TrimSpace_quoted, !Trim_quoted, TrimSpace_spaces by done.
  rewrite (ReplaceAll_quoteFree desc Hdesc).
  change (GoStrings.Trim (GoStrings.TrimSpace "string") dquote) with "string".
  case_decide; [done|]. repeat case_decide; try done.
  eexists. split; [reflexivity|]. reflexivity.
Qed.

(** For a declaration whose type does not read string, the description
    names the text of the default as it stands, without the spaces around
    it. *)
Lemma other_default_shown_as_written `{HclWrite} (block : Block) (label0 : string)
    (labels : list string) (d v t : Tokens) (n m : nat) (text desc : string) :
  Block_Labels block = label0 :: labels ->
  label0 ≠ "enabled" ->
  GetAttribute (Block_Body block) "type" = Some t ->
  GoStrings.Trim (GoStrings.TrimSpace (Tokens_Bytes t)) dquote ≠ "string" ->
  GetAttribute (Block_Body block) "default" = Some v ->
  Tokens_Bytes v = spaces n +:+ text ->
  GoStrings.TrimSpace text = text ->
  GetAttribute (Block_Body block) "description" = Some d ->
  Tokens_Bytes d = spaces m +:+ dquote +:+ desc +:+ dquote ->
  quoteFree desc = true -> text ≠ "" ->
  exists variable,
    Sync.synthesizeBlock block = Done (Some variable) /\
    GetAttribute (Block_Body variable) "description"
    = Some (TokensForValue (StringVal (desc +:+ " Defaults to `" +:+ text +:+ "`."))).
Proof.
  intros Hl Hen Ht Hty Hv Hvb Htext Hd Hdb Hdesc Hne.
  unfold Sync.synthesizeBlock, Sync.describe.
  rewrite Hl, Ht, Hd, Hv, Hvb, Hdb.
  rewrite TrimSpace_quoted, Trim_quoted, TrimSpace_spaces, Htext by done.
  rewrite (ReplaceAll_quoteFree desc Hdesc).
  case_decide; [done|]. repeat case_decide; try done.
  eexists. split; [reflexivity|]. reflexivity.
Qed.

(** The older synthesizer gives the two sample declarations the same
    descriptions. *)
Example legacy_description_samples :
  let hcl := Samples.plainHcl ∅ in
  (exists variable,
      @Legacy.synthesizeBlock hcl Samples.fooBlock = Done (Some variable) /\
      GetAttribute (Block_Body variable) "description"
      = Some (@TokensForValue hcl (StringVal "desc Defaults to `foo`."))) /\
  (exists variable,
      @Legacy.synthesizeBlock hcl Samples.threeBlock = Done (Some variable) /\
      GetAttribute (Block_Body variable) "description"
      = Some (@TokensForValue hcl (StringVal "desc Defaults to `3`."))).
Proof. split; eexists; (split; [reflexivity|]); vm_compute; reflexivity. Qed.

(** Where the two variants part: the older one takes every quote out of
    the default, whatever the type; the current one leaves the quotes of a
    default whose type is not string. *)
Example quotes_of_a_list_default :
  (exists variable,
      @Sync.synthesizeBlock (Samples.plainHcl ∅) Samples.zonesBlock
      = Done (Some variable) /\
      GetAttribute (Block_Body variable) "description"
      = Some (@TokensForValue (Samples.plainHcl ∅)
                (StringVal ("desc Defaults to `[" +:+ dquote +:+ "a" +:+ dquote
                            +:+ "]`.")))) /\
  (exists variable,
      @Legacy.synthesizeBlock (Samples.plainHcl ∅) Samples.zonesBlock
      = Done (Some variable) /\
      GetAttribute (Block_Body variable) "description"
      = Some (@TokensForValue (Samples.plainHcl ∅)
                (StringVal "desc Defaults to `[a]`."))).
Proof. split; eexists; (split; [reflexivity|]); vm_compute; reflexivity. Qed.

(** C2. A declaration whose type reads string, whose default is the empty
    string literal and whose description is "desc", each after any number of
    spaces: both synthesizers emit a block whose description is the string
    value desc Defaults to `Q`. where Q is a pair of quotes. *)
Theorem empty_default_sentinel `{HclWrite} (block : Block) (label0 : string)
    (labels : list string) (d v t : Tokens) (k n m : nat) :
  Block_Labels block = label0 :: labels ->
  label0 ≠ "enabled" ->
  GetAttribute (Block_Body block) "type" = Some t ->
  Tokens_Bytes t = spaces k +:+ "string" ->
  GetAttribute (Block_Body block) "default" = Some v ->
  Tokens_Bytes v = spaces n +:+ dquote +:+ dquote ->
  GetAttribute (Block_Body block) "description" = Some d ->
  Tokens_Bytes d = spaces m +:+ dquote +:+ "desc" +:+ dquote ->
  let expected :=
    TokensForValue (StringVal ("desc Defaults to `" +:+ dquote +:+ dquote +:+ "`.")) in
  exists current legacy,
    Sync.synthesizeBlock block = Done (Some current) /\
    GetAttribute (Block_Body current) "description" = Some expected /\
    Legacy.synthesizeBlock block = Done (Some legacy) /\
    GetAttribute (Block_Body legacy) "description" = Some expected.
Proof.
  intros Hl Hen Ht Htb Hv Hvb Hd Hdb. simpl.
  unfold Sync.synthesizeBlock, Sync.describe, Legacy.synthesizeBlock.
  rewrite Hl, Ht, Hd, Hv, Htb, Hvb, Hdb.
  rewrite !ReplaceAll_dquote_spaces, !TrimSpace_spaces.
  case_decide; [done|]. eexists _, _.
  split; [reflexivity|]. split; [reflexivity|]. split; [reflexivity|].
  simpl. unfold SetAttributeValue.
  rewrite GetAttribute_Set_ne by done. apply GetAttribute_Set_eq.
Qed.

Lemma empty_default_sentinel_witness :
  exists current legacy,
    @Sync.synthesizeBlock (Samples.plainHcl ∅) Samples.emptyBlock
    = Done (Some current) /\
    GetAttribute (Block_Body current) "description"
    = Some (@TokensForValue (Samples.plainHcl ∅)
              (StringVal ("desc Defaults to `" +:+ dquote +:+ dquote +:+ "`."))) /\
    @Legacy.synthesizeBlock (Samples.plainHcl ∅) Samples.emptyBlock
    = Done (Some legacy) /\
    GetAttribute (Block_Body legacy) "description"
    = Some (@TokensForValue (Samples.plainHcl ∅)
              (StringVal ("desc Defaults to `" +:+ dquote +:+ dquote +:+ "`."))).
Proof.
  apply (@empty_default_sentinel (Samples.plainHcl ∅) Samples.emptyBlock "suffix" []
           (Samples.quoted 1 "desc") (Samples.quoted 1 "") (Samples.ident 1 "string")
           1 1 1);
    [reflexivity|discriminate|reflexivity|reflexivity|reflexivity|reflexivity
    |reflexivity|reflexivity].
Defined.

(** ** When the current synthesizer panics *)

Section Panics.
Context `{HclWrite}.

Lemma appendVariableBlocks_Blocks (blocks : list Block) :
  forall varFile : Body,
    Blocks (Sync.appendVariableBlocks blocks varFile)
    = Blocks varFile ++ filter extractable blocks.
Proof.
  induction blocks as [|block rest IH]; intros varFile; simpl.
  - by rewrite app_nil_r.
  - rewrite filter_cons. unfold extractable at 2.
    case_decide as Hty.
    + rewrite IH. case_decide as Hex; [|done]. by destruct Hex.
    + case_decide as Hlen.
      * rewrite IH. case_decide as Hex; [|done].
        destruct Hex as [_ Hl]. by destruct (Block_Labels block).
      * rewrite IH. unfold AppendBlock. rewrite Blocks_app. simpl.
        rewrite <- app_assoc. simpl.
        case_decide as Hex; [done|]. exfalso. apply Hex. split.
        -- destruct (decide (Block_Type block = "variable")); [done|].
           by destruct Hty.
        -- intros E. by rewrite E in Hlen.
Qed.

Lemma synthesizeBlock_untyped (block : Block) :
  untyped block -> Sync.synthesizeBlock block = Panicked nilDereference.
Proof.
  intros (label0 & labels & Hl & Hen & Ht). unfold Sync.synthesizeBlock.
  rewrite Hl, Ht. by case_decide.
Qed.

Lemma synthesizeBlock_typed (block : Block) :
  Block_Labels block ≠ [] -> ¬ untyped block ->
  exists r, Sync.synthesizeBlock block = Done r.
Proof.
  intros Hl Hun. unfold Sync.synthesizeBlock, Sync.describe.
  destruct (Block_Labels block) as [|label0 labels] eqn:El; [done|].
  case_decide as Hen; [by eexists|].
  destruct (GetAttribute (Block_Body block) "type") eqn:Et.
  - destruct (GetAttribute (Block_Body block) "description");
      [destruct (GetAttribute (Block_Body block) "default")|]; by eexists.
  - exfalso. apply Hun. by exists label0, labels.
Qed.

Lemma synthesizeBlock_panic (block : Block) (msg : string) :
  Block_Labels block ≠ [] ->
  Sync.synthesizeBlock block = Panicked msg -> msg = nilDereference.
Proof.
  intros Hl. unfold Sync.synthesizeBlock, Sync.describe.
  destruct (Block_Labels block) as [|label0 labels] eqn:El; [done|].
  case_decide as Hen; [done|].
  destruct (GetAttribute (Block_Body block) "type") eqn:Et; [|by intros [= <-]].
  destruct (GetAttribute (Block_Body block) "description");
    [destruct (GetAttribute (Block_Body block) "default")|]; done.
Qed.

Lemma synthesizeBlocks_untyped (blocks : list Block) :
  forall file : Body,
    Forall (fun block => Block_Labels block ≠ []) blocks ->
    Exists untyped blocks ->
    Sync.synthesizeBlocks blocks file = Panicked nilDereference.
Proof.
  induction blocks as [|block rest IH]; intros file Hlab Hex.
  - by apply Exists_nil in Hex.
  - apply Forall_cons in Hlab as [Hl Hlab]. simpl.
    apply Exists_cons in Hex as [Hex|Hex].
    + by rewrite synthesizeBlock_untyped.
    + destruct (Sync.synthesizeBlock block) as [r|msg] eqn:E.
      * destruct r; by apply IH.
      * by rewrite (synthesizeBlock_panic block msg Hl E).
Qed.

Lemma synthesizeBlocks_typed (blocks : list Block) :
  forall file : Body,
    Forall (fun block => Block_Labels block ≠ []) blocks ->
    ¬ Exists untyped blocks ->
    exists out, Sync.synthesizeBlocks blocks file = Done out.
Proof.
  induction blocks as [|block rest IH]; intros file Hlab Hex.
  - by eexists.
  - apply Forall_cons in Hlab as [Hl Hlab]. simpl.
    destruct (synthesizeBlock_typed block Hl) as [r ->].
    { intros Hun. apply Hex. by left. }
    destruct r; apply IH; try done; intros Hun; apply Hex; by right.
Qed.

Lemma Exists_untyped_extracted (blocks : list Block) :
  Exists untyped (filter extractable blocks)
  <-> Exists (fun block => Block_Type block = "variable" /\ untyped block) blocks.
Proof.
  rewrite !Exists_exists. split.
  - intros (block & Hin & Hun). apply list_elem_of_filter in Hin as [[Hty _] Hin].
    by exists block.
  - intros (block & Hin & Hty & Hun). exists block. split; [|done].
    apply list_elem_of_filter. split; [|done]. split; [done|].
    destruct Hun as (label0 & labels & -> & _). done.
Qed.

End Panics.

(** C9. [syncAddonVariables] of the current generator, run on what
    [extractVariables] keeps of a parsed file: when some variable block with
    a name other than "enabled" has no type attribute, the call panics on a
    nil pointer and returns no error, the world being left as it was; when
    every such block has a type, the call returns.  A block that has a
    description and a default and no type is such an input. *)
Theorem type_attribute_required `{HclWrite} `{Filepath}
    (vp : Sync.VariableProcessor) (ctx : Context) (moduleName : string)
    (file : File) (w : World) :
  let varFile :=
    mkFile (Sync.appendVariableBlocks (Blocks (File_Body file))
              (File_Body NewEmptyFile)) in
  let missing :=
    Exists (fun block => Block_Type block = "variable" /\ untyped block)
           (Blocks (File_Body file)) in
  (missing ->
   Sync.syncAddonVariables vp ctx moduleName varFile w
   = (Panicked nilDereference, w)) /\
  (¬ missing ->
   exists r w', Sync.syncAddonVariables vp ctx moduleName varFile w = (Done r, w')) /\
  (exists block,
      is_Some (GetAttribute (Block_Body block) "description") /\
      is_Some (GetAttribute (Block_Body block) "default") /\
      GetAttribute (Block_Body block) "type" = None /\
      Sync.syncAddonVariables vp ctx moduleName (mkFile [ItemBlock block]) w
      = (Panicked nilDereference, w)).
Proof.
  simpl.
  assert (Forall (fun block => Block_Labels block ≠ [])
                 (filter extractable (Blocks (File_Body file)))) as Hlab.
  { apply Forall_forall. intros block Hin.
    by apply list_elem_of_filter in Hin as [[_ Hl] _]. }
  split; [|split].
  - intros Hmiss. unfold Sync.syncAddonVariables, Sync.synthesize. simpl.
    rewrite synthesizeBlocks_untyped; [done| |].
    + by rewrite appendVariableBlocks_Blocks.
    + rewrite appendVariableBlocks_Blocks. simpl.
      by apply Exists_untyped_extracted.
  - intros Hmiss. unfold Sync.syncAddonVariables, Sync.synthesize. simpl.
    destruct (synthesizeBlocks_typed
                (Blocks (Sync.appendVariableBlocks (Blocks (File_Body file)) []))
                []) as [out ->].
    + by rewrite appendVariableBlocks_Blocks.
    + rewrite appendVariableBlocks_Blocks. simpl.
      by rewrite Exists_untyped_extracted.
    + destruct (os_WriteFile _ _ _ w) as [[err|] w1]; by eexists _, _.
  - exists Samples.untypedBlock. split; [by eexists|]. split; [by eexists|].
    split; reflexivity.
Qed.

Lemma type_attribute_required_witness :
  @Sync.syncAddonVariables (Samples.plainHcl ∅) Samples.plainPaths
    sampleProcessor neverCancelled "addon-x" sampleUntypedFile emptyWorld
  = (Panicked nilDereference, emptyWorld).
Proof.
  apply (proj1 (@type_attribute_required (Samples.plainHcl ∅) Samples.plainPaths
                  sampleProcessor neverCancelled "addon-x" sampleUntypedFile
                  emptyWorld)).
  apply Exists_cons_tl, Exists_cons_hd. split; [reflexivity|].
  exists "untyped", []. split; [reflexivity|]. split; [discriminate|reflexivity].
Defined.

(** ** The batch entry point *)

Section Batch.
Variable processModule : string -> M (option error).

Lemma Context_Err_never (ctx : Context) (tick : nat) :
  Context_firesAt ctx = None -> Context_Err ctx tick = None.
Proof. unfold Context_Err. by intros ->. Qed.

(** Without cancellation, a loop that does not panic is a full pass, and
    its counters count the visits. *)
Lemma processEntries_Pass (ctx : Context) (entries : list DirEntry) :
  Context_firesAt ctx = None ->
  forall (tick : nat) (c : Counts) (w : World) (exit : LoopExit) (w' : World),
    Orchestrator.processEntries processModule ctx tick entries c w = (Done exit, w') ->
    exists visits c',
      exit = LoopEnd c' /\
      Pass processModule entries w visits w' /\
      errorCount c' = errorCount c + length (List.filter failed visits) /\
      processedCount c' + errorCount c'
      = processedCount c + errorCount c + length visits /\
      skippedCount c' = skippedCount c + length (List.filter skippedDirectory entries).
Proof.
  intros Hctx. induction entries as [|entry rest IH]; intros tick c w exit w' Hrun.
  - simpl in Hrun. inversion Hrun; subst. exists [], c. simpl.
    split; [done|]. split; [constructor|]. lia.
  - simpl in Hrun. rewrite (Context_Err_never ctx tick Hctx) in Hrun.
    cbn [List.filter].
    assert (skippedDirectory entry
            = DirEntry_IsDir entry && Orchestrator.skipped (DirEntry_Name entry))
      as -> by reflexivity.
    destruct (DirEntry_IsDir entry) eqn:Edir; simpl in Hrun |- *.
    + destruct (Orchestrator.skipped (DirEntry_Name entry)) eqn:Eskip.
      * apply IH in Hrun as (visits & c' & -> & Hpass & He & Hp & Hs).
        simpl in He, Hp, Hs. exists visits, c'.
        split; [done|]. split; [by apply Pass_skipped|]. simpl.
        lia.
      * destruct (processModule _ _) as [[[procErr|]|msg] w2] eqn:Ecall; [| |done].
        -- apply IH in Hrun as (visits & c' & -> & Hpass & He & Hp & Hs).
           simpl in He, Hp, Hs.
           exists ((DirEntry_Name entry, Some procErr) :: visits), c'.
           split; [done|].
           split; [by eapply (Pass_module _ _ _ _ (Some procErr))|].
           simpl. lia.
        -- apply IH in Hrun as (visits & c' & -> & Hpass & He & Hp & Hs).
           simpl in He, Hp, Hs.
           exists ((DirEntry_Name entry, None) :: visits), c'.
           split; [done|].
           split; [by eapply (Pass_module _ _ _ _ None)|].
           simpl. lia.
    + apply IH in Hrun as (visits & c' & -> & Hpass & He & Hp & Hs).
      exists visits, c'. split; [done|]. split; [by apply Pass_ignored|].
      lia.
Qed.

(** The modules a pass visits are the candidate entries, in their order. *)
Lemma Pass_visits (entries : list DirEntry) (w w' : World)
    (visits : list (string * option error)) :
  Pass processModule entries w visits w' ->
  visits.*1 = DirEntry_Name <$> List.filter candidate entries.
Proof.
  induction 1 as [w|entry rest w visits w' Hdir _ IH
                 |entry rest w visits w' Hdir Hskip _ IH
                 |entry rest w r w2 visits w' Hdir Hskip Hcall _ IH];
    cbn [List.filter].
  - done.
  - unfold candidate at 1. by rewrite Hdir.
  - unfold candidate at 1. by rewrite Hdir, Hskip.
  - unfold candidate at 1. rewrite Hdir, Hskip. simpl. f_equal. exact IH.
Qed.

(** A processor that never panics makes the loop return. *)
Lemma processEntries_returns (ctx : Context) (entries : list DirEntry) :
  (forall name w, exists r w', processModule name w = (Done r, w')) ->
  forall (tick : nat) (c : Counts) (w : World),
    exists exit w',
      Orchestrator.processEntries processModule ctx tick entries c w = (Done exit, w').
Proof.
  intros Htotal. induction entries as [|entry rest IH]; intros tick c w; simpl.
  - by eexists _, _.
  - destruct (Context_Err ctx tick); [by eexists _, _|].
    destruct (DirEntry_IsDir entry); simpl; [|apply IH].
    destruct (Orchestrator.skipped (DirEntry_Name entry)); [apply IH|].
    destruct (Htotal (DirEntry_Name entry)
                (logAt LevelInfo "Processing module"
                   [("module", LogString (DirEntry_Name entry))] w))
      as (r & w2 & ->).
    destruct r; apply IH.
Qed.

End Batch.

Section BatchResults.
Variable processModule : string -> M (option error).

Lemma filter_failed_Exists (visits : list (string * option error)) :
  0 < length (List.filter failed visits)
  <-> Exists (fun visit => is_Some visit.2) visits.
Proof.
  induction visits as [|[name r] visits IH]; simpl.
  - split; [lia|]. by intros Hex%Exists_nil.
  - rewrite Exists_cons. unfold failed at 1. simpl. destruct r as [procErr|]; simpl.
    + split; [|lia]. intros _. left. by eexists.
    + rewrite IH. split; [by right|]. intros [[? [=]]|Hex]. done.
Qed.

(** A run without cancellation that returns: the loop made a full pass,
    logged its counters, and returned according to the error counter. *)
Lemma ProcessModules_Pass (modulesDir : string) (ctx : Context)
    (entries : list DirEntry) (w w' : World) (r : option error) :
  Context_firesAt ctx = None ->
  dirs w !! modulesDir = Some (inr entries) ->
  Orchestrator.ProcessModules processModule modulesDir ctx w = (Done r, w') ->
  exists visits c w1,
    Pass processModule entries (startRecord modulesDir w) visits w1 /\
    errorCount c = length (List.filter failed visits) /\
    processedCount c + errorCount c = length visits /\
    skippedCount c = length (List.filter skippedDirectory entries) /\
    w' = mkWorld (dirs w1) (files w1) (faults w1) (logged w1 ++ [finishedRecord c]) /\
    r = if decide (0 < errorCount c) then Some (aggregateError c)
        else None.
Proof.
  intros Hctx Hdir. unfold Orchestrator.ProcessModules, os_ReadDir. simpl.
  rewrite Hdir.
  destruct (Orchestrator.processEntries _ _ _ _ _ _) as [[exit|msg] w1] eqn:Eloop;
    [|done].
  apply (processEntries_Pass _ _ _ Hctx) in Eloop
    as (visits & c & -> & Hpass & He & Hp & Hs).
  simpl in He, Hp, Hs. intros Hrun. exists visits, c, w1.
  split; [exact Hpass|]. split; [exact He|]. split; [exact Hp|]. split; [exact Hs|].
  case_decide; by inversion Hrun.
Qed.

(** With a processor that never panics, the run returns. *)
Lemma ProcessModules_returns (modulesDir : string) (ctx : Context) (w : World) :
  (forall name w0, exists r0 w1, processModule name w0 = (Done r0, w1)) ->
  exists r w',
    Orchestrator.ProcessModules processModule modulesDir ctx w = (Done r, w').
Proof.
  intros Htotal. unfold Orchestrator.ProcessModules.
  destruct (os_ReadDir _ _) as [err|entries].
  - destruct (errors_Is_ErrNotExist err); by eexists _, _.
  - destruct (processEntries_returns processModule ctx entries Htotal 0
                (mkCounts 0 0 0)
                (logAt LevelInfo "Starting variable sync from modules"
                   [("modulesDir", LogString modulesDir)] w))
      as (exit & w1 & ->).
    destruct exit as [err|c]; [by eexists _, _|].
    case_decide; by eexists _, _.
Qed.

End BatchResults.

(** A panic is not an error: it ends the batch.  With an addon that declares
    a variable without a type before the others, the run panics and the file
    of the addon after it is not written. *)
Example untyped_variable_ends_the_batch :
  exists w' : World,
    @Sync.ProcessModules untypedHcl Samples.plainPaths sampleProcessor neverCancelled
      untypedWorld = (Panicked nilDereference, w') /\
    files w' !! "out/variables-addon-x.tf" = None.
Proof. eexists. split; [vm_compute; reflexivity|]. vm_compute. reflexivity. Qed.

(** C6. When the modules directory does not exist, ProcessModules returns
    nil whatever the processor is; the world it leaves differs from the one
    it found by two log records, the start of the sync and the warning, so
    no module was processed, skipped or counted as an error. *)
Theorem missing_directory_is_success (processModule : string -> M (option error))
    (modulesDir : string) (ctx : Context) (w : World) :
  dirs w !! modulesDir = None ->
  Orchestrator.ProcessModules processModule modulesDir ctx w
  = (Done nilError,
     logAt LevelWarn "Modules directory not found, skipping sync"
       [("modulesDir", LogString modulesDir)] (startRecord modulesDir w)).
Proof.
  intros Hdir. unfold Orchestrator.ProcessModules, os_ReadDir. simpl.
  by rewrite Hdir.
Qed.

Lemma missing_directory_is_success_witness :
  @Sync.ProcessModules sampleHcl Samples.plainPaths sampleProcessor neverCancelled
    emptyWorld
  = (Done nilError,
     logAt LevelWarn "Modules directory not found, skipping sync"
       [("modulesDir", LogString "work/modules")]
       (startRecord "work/modules" emptyWorld)).
Proof.
  apply (missing_directory_is_success
           (@Sync.processModule sampleHcl Samples.plainPaths sampleProcessor
              neverCancelled)
           "work/modules" neverCancelled emptyWorld).
  reflexivity.
Defined.

(** C7, as stated, fails: the context is looked at only at the top of a
    loop turn, so with an expired context and an empty modules directory the
    call returns nil. *)
Lemma cancellation_counterexample :
  Context_Err expired 0 = Some context_DeadlineExceeded /\
  (@Sync.ProcessModules sampleHcl Samples.plainPaths sampleProcessor expired
     emptyDirWorld).1 = Done nilError /\
  (@Sync.ProcessModules sampleHcl Samples.plainPaths sampleProcessor expired
     emptyDirWorld).1 ≠ Done (Some (Context_cause expired)).
Proof.
  split; [reflexivity|]. split; [vm_compute; reflexivity|].
  vm_compute. discriminate.
Qed.

(** C7, amended. When the context is already cancelled and the modules
    directory lists at least one entry, ProcessModules returns the error of
    the context whatever the processor is; the world it leaves differs from
    the one it found by the start record and the cancellation warning, so no
    module was processed. *)
Theorem cancelled_before_first_entry (processModule : string -> M (option error))
    (modulesDir : string) (ctx : Context) (entry : DirEntry)
    (entries : list DirEntry) (err : error) (w : World) :
  dirs w !! modulesDir = Some (inr (entry :: entries)) ->
  Context_Err ctx 0 = Some err ->
  Orchestrator.ProcessModules processModule modulesDir ctx w
  = (Done (Some err),
     logAt LevelWarn "Processing cancelled" [("error", LogErr err)]
       (startRecord modulesDir w)).
Proof.
  intros Hdir Hctx. unfold Orchestrator.ProcessModules, os_ReadDir. simpl.
  rewrite Hdir. simpl. by rewrite Hctx.
Qed.

Lemma cancelled_before_first_entry_witness :
  @Sync.ProcessModules sampleHcl Samples.plainPaths sampleProcessor expired sampleWorld
  = (Done (Some context_DeadlineExceeded),
     logAt LevelWarn "Processing cancelled" [("error", LogErr context_DeadlineExceeded)]
       (startRecord "work/modules" sampleWorld)).
Proof.
  apply (cancelled_before_first_entry
           (@Sync.processModule sampleHcl Samples.plainPaths sampleProcessor expired)
           "work/modules" expired (mkDirEntry "README.md" false)
           (tail sampleEntries) context_DeadlineExceeded sampleWorld).
  - vm_compute. reflexivity.
  - reflexivity.
Defined.

(** C8. A run of ProcessModules that is not cancelled and returns has made
    a full pass: every candidate directory was handed to the processor, in
    order, whatever the calls before it returned; the error counter is the
    number of calls that returned an error; and the run returns the
    aggregate error carrying that counter exactly when some call returned an
    error, nil otherwise. *)
Theorem errors_do_not_abort (processModule : string -> M (option error))
    (modulesDir : string) (ctx : Context) (entries : list DirEntry)
    (w w' : World) (r : option error) :
  Context_firesAt ctx = None ->
  dirs w !! modulesDir = Some (inr entries) ->
  Orchestrator.ProcessModules processModule modulesDir ctx w = (Done r, w') ->
  exists visits c w1,
    Pass processModule entries (startRecord modulesDir w) visits w1 /\
    visits.*1 = DirEntry_Name <$> List.filter candidate entries /\
    errorCount c = length (List.filter failed visits) /\
    processedCount c + errorCount c = length visits /\
    last (logged w') = Some (finishedRecord c) /\
    r = (if decide (0 < errorCount c) then Some (aggregateError c)
         else None) /\
    (is_Some r <-> Exists (fun visit => is_Some visit.2) visits).
Proof.
  intros Hctx Hdir Hrun.
  destruct (ProcessModules_Pass _ _ _ _ _ _ _ Hctx Hdir Hrun)
    as (visits & c & w1 & Hpass & He & Hp & Hs & -> & ->).
  exists visits, c, w1. split; [exact Hpass|].
  split; [by eapply Pass_visits|]. split; [exact He|]. split; [exact Hp|].
  split; [simpl; apply last_snoc|]. split; [done|].
  rewrite <- filter_failed_Exists, <- He. case_decide; split; done.
Qed.

Lemma errors_do_not_abort_witness :
  exists (r : option error) (w' : World),
    @Sync.ProcessModules sampleHcl Samples.plainPaths sampleProcessor neverCancelled
      sampleWorld = (Done r, w') /\
    exists visits c w1,
      Pass (@Sync.processModule sampleHcl Samples.plainPaths sampleProcessor
              neverCancelled)
           sampleEntries (startRecord "work/modules" sampleWorld) visits w1 /\
      visits.*1 = ["addon-bad"; "addon-x"] /\
      errorCount c = length (List.filter failed visits) /\
      processedCount c + errorCount c = length visits /\
      last (logged w') = Some (finishedRecord c) /\
      r = (if decide (0 < errorCount c) then Some (aggregateError c)
           else None) /\
      (is_Some r <-> Exists (fun visit => is_Some visit.2) visits).
Proof.
  eexists _, _. split; [vm_compute; reflexivity|].
  apply (errors_do_not_abort
           (@Sync.processModule sampleHcl Samples.plainPaths sampleProcessor
              neverCancelled)
           "work/modules" neverCancelled sampleEntries sampleWorld).
  - reflexivity.
  - vm_compute. reflexivity.
  - vm_compute. reflexivity.
Defined.

Lemma candidate_criteria (entry : DirEntry) :
  candidate entry
  = DirEntry_IsDir entry
    && GoStrings.HasPrefix (DirEntry_Name entry) "addon"
    && negb (GoStrings.Contains (DirEntry_Name entry) ".").
Proof.
  unfold candidate, Orchestrator.skipped, Orchestrator.modulePrefix.
  destruct (DirEntry_IsDir entry), (GoStrings.HasPrefix _ _), (GoStrings.Contains _ _);
    reflexivity.
Qed.

(** C10. In a run of ProcessModules that is not cancelled and returns, the
    modules handed to the processor are the entries that are directories,
    whose name starts with "addon" and has no "." in it, in their order; the
    skipped counter is the number of the other directories; an entry that is
    not a directory is in neither.  So a directory with a dot in its name is
    never processed. *)
Theorem only_addon_directories_processed
    (processModule : string -> M (option error)) (modulesDir : string)
    (ctx : Context) (entries : list DirEntry) (w w' : World) (r : option error) :
  Context_firesAt ctx = None ->
  dirs w !! modulesDir = Some (inr entries) ->
  Orchestrator.ProcessModules processModule modulesDir ctx w = (Done r, w') ->
  exists visits c w1,
    Pass processModule entries (startRecord modulesDir w) visits w1 /\
    visits.*1
    = DirEntry_Name
        <$> List.filter
              (fun entry =>
                 DirEntry_IsDir entry
                 && GoStrings.HasPrefix (DirEntry_Name entry) "addon"
                 && negb (GoStrings.Contains (DirEntry_Name entry) "."))
              entries /\
    processedCount c + errorCount c = length visits /\
    skippedCount c
    = length (List.filter
                (fun entry =>
                   DirEntry_IsDir entry
                   && (negb (GoStrings.HasPrefix (DirEntry_Name entry) "addon")
                       || GoStrings.Contains (DirEntry_Name entry) "."))
                entries) /\
    last (logged w') = Some (finishedRecord c) /\
    (forall name, GoStrings.Contains name "." = true -> name ∉ visits.*1).
Proof.
  intros Hctx Hdir Hrun.
  destruct (ProcessModules_Pass _ _ _ _ _ _ _ Hctx Hdir Hrun)
    as (visits & c & w1 & Hpass & He & Hp & Hs & -> & ->).
  assert (visits.*1
          = DirEntry_Name
              <$> List.filter
                    (fun entry =>
                       DirEntry_IsDir entry
                       && GoStrings.HasPrefix (DirEntry_Name entry) "addon"
                       && negb (GoStrings.Contains (DirEntry_Name entry) "."))
                    entries) as Hvisits.
  { rewrite (Pass_visits _ _ _ _ _ Hpass). f_equal.
    apply List.filter_ext. intros entry. apply candidate_criteria. }
  exists visits, c, w1. split; [exact Hpass|]. split; [exact Hvisits|].
  split; [exact Hp|]. split; [exact Hs|]. split; [simpl; apply last_snoc|].
  intros name Hdot Hin. rewrite Hvisits in Hin.
  apply list_elem_of_fmap in Hin as (entry & -> & Hin).
  apply list_elem_of_In, List.filter_In in Hin as [_ Hcrit].
  rewrite Hdot in Hcrit. by destruct (DirEntry_IsDir entry), (GoStrings.HasPrefix _ _).
Qed.

Lemma only_addon_directories_processed_witness :
  exists (r : option error) (w' : World),
    @Sync.ProcessModules sampleHcl Samples.plainPaths sampleProcessor neverCancelled
      sampleWorld = (Done r, w') /\
    exists visits c w1,
      Pass (@Sync.processModule sampleHcl Samples.plainPaths sampleProcessor
              neverCancelled)
           sampleEntries (startRecord "work/modules" sampleWorld) visits w1 /\
      visits.*1 = ["addon-bad"; "addon-x"] /\
      processedCount c + errorCount c = length visits /\
      skippedCount c = 2 /\
      last (logged w') = Some (finishedRecord c) /\
      (forall name, GoStrings.Contains name "." = true -> name ∉ visits.*1).
Proof.
  eexists _, _. split; [vm_compute; reflexivity|].
  refine (only_addon_directories_processed
            (@Sync.processModule sampleHcl Samples.plainPaths sampleProcessor
               neverCancelled)
            "work/modules" neverCancelled sampleEntries sampleWorld _ _ _ _ _).
  - reflexivity.
  - vm_compute. reflexivity.
  - vm_compute. reflexivity.
Defined.

(** ** The legacy rewrite of lookups *)

Section LegacyFacts.
Context `{HclWrite}.
Variable rangeOrder : gmap string Tokens -> list (string * Tokens).
Hypothesis rangeOrder_perm : forall m, rangeOrder m ≡ₚ map_to_list m.

Lemma Attributes_lookup (body : Body) (name : string) :
  Attributes body !! name = GetAttribute body name.
Proof.
  induction body as [|[n e|blk|ts] body IH]; simpl; try done.
  case_decide as Hn.
  - subst. apply lookup_insert_eq.
  - by rewrite lookup_insert_ne.
Qed.

(** The types and bytes of the expression built for a matching attribute:
    the third argument of the lookup is whatever the table gives for the
    name. *)
Lemma ternary_text (defaults : gmap string Tokens) (name : string) :
  tokenText <$> Legacy.ternary defaults name
  = ternaryText name (escapeQuotedStringLit name)
      (tokenText <$> Legacy.defaultsIndex defaults name).
Proof.
  unfold Legacy.ternary, TokensForFunctionCall, TokensForValue, TokensForIdentifier,
    ternaryText.
  rewrite !fmap_app, !format_text. simpl. rewrite !fmap_app, !format_text. simpl.
  case_decide; simpl; rewrite ?fmap_app; simpl; rewrite <- ?app_assoc; done.
Qed.

(** What the loop over the attributes leaves under a name. *)
Lemma rewriteAttributes_get (defaults : gmap string Tokens)
    (attributes : list (string * Tokens)) :
  forall (body : Body) (name : string),
    GetAttribute (Legacy.rewriteAttributes defaults attributes body) name
    = if existsb (fun '(n, e) =>
                    bool_decide (n = name) && Legacy.hasMarker (Tokens_Bytes e))
                 attributes
      then Some (Legacy.ternary defaults name)
      else GetAttribute body name.
Proof.
  unfold Legacy.rewriteAttributes.
  induction attributes as [|[n e] attributes IH]; intros body name; simpl; [done|].
  rewrite IH. destruct (existsb _ attributes); [by rewrite orb_true_r|].
  rewrite orb_false_r. case_bool_decide as Hn; simpl.
  - subst. destruct (Legacy.hasMarker _); [apply GetAttribute_Set_eq|done].
  - destruct (Legacy.hasMarker _); [by apply GetAttribute_Set_ne|done].
Qed.

Lemma existsb_marked (m : gmap string Tokens) (name : string) :
  existsb (fun '(n, e) =>
             bool_decide (n = name) && Legacy.hasMarker (Tokens_Bytes e))
          (rangeOrder m)
  = match m !! name with
    | Some e => Legacy.hasMarker (Tokens_Bytes e)
    | None => false
    end.
Proof.
  apply eq_true_iff_eq. rewrite existsb_exists. split.
  - intros ([n e] & Hin & Hb). apply andb_true_iff in Hb as [Hn Hm].
    apply bool_decide_eq_true in Hn as ->.
    apply list_elem_of_In in Hin. rewrite rangeOrder_perm in Hin.
    apply elem_of_map_to_list in Hin. by rewrite Hin.
  - destruct (m !! name) as [e|] eqn:E; [|done]. intros Hm.
    exists (name, e). split.
    + apply list_elem_of_In. rewrite rangeOrder_perm. by apply elem_of_map_to_list.
    + rewrite Hm. by rewrite bool_decide_eq_true_2.
Qed.

(** In a module block, an attribute whose expression has a marker gets the
    ternary of its own name, and any other attribute keeps its tokens. *)
Lemma rewriteBlock_attribute (defaults : gmap string Tokens) (block : Block)
    (name : string) (e : Tokens) :
  Block_Type block = "module" ->
  GetAttribute (Block_Body block) name = Some e ->
  GetAttribute (Block_Body (Legacy.rewriteBlock rangeOrder defaults block)) name
  = Some (if Legacy.hasMarker (Tokens_Bytes e)
          then Legacy.ternary defaults name else e).
Proof.
  intros Hty Hget. unfold Legacy.rewriteBlock. case_decide; [done|]. simpl.
  rewrite rewriteAttributes_get, existsb_marked, Attributes_lookup, Hget.
  by destruct (Legacy.hasMarker _).
Qed.

(** A block that is not a module block is left as it is. *)
Lemma rewriteBlock_other (defaults : gmap string Tokens) (block : Block) :
  Block_Type block ≠ "module" ->
  Legacy.rewriteBlock rangeOrder defaults block = block.
Proof. intros Hty. unfold Legacy.rewriteBlock. by case_decide. Qed.

(** At the level of the file: its blocks are rewritten one by one, where
    they stand, and nothing else in it changes. *)
Lemma rewriteBlocks_Blocks (defaults : gmap string Tokens) (body : Body) :
  Blocks (Legacy.rewriteBlocks rangeOrder defaults body)
  = Legacy.rewriteBlock rangeOrder defaults <$> Blocks body.
Proof.
  unfold Legacy.rewriteBlocks.
  induction body as [|[n e|blk|ts] body IH]; simpl; try done. f_equal. exact IH.
Qed.

Lemma rewriteBlocks_attributes (defaults : gmap string Tokens) (body : Body)
    (name : string) :
  GetAttribute (Legacy.rewriteBlocks rangeOrder defaults body) name
  = GetAttribute body name.
Proof.
  unfold Legacy.rewriteBlocks.
  induction body as [|[n e|blk|ts] body IH]; simpl; try done.
  case_decide; [done|exact IH].
Qed.

(** The table has an entry for the declared names only. *)
Lemma buildDefaults_undeclared (blocks : list Block) (name : string) :
  forall acc defaults : gmap string Tokens,
    Legacy.buildDefaults blocks acc = Done defaults ->
    Forall (fun block => head (Block_Labels block) ≠ Some name) blocks ->
    defaults !! name = acc !! name.
Proof.
  induction blocks as [|block rest IH]; intros acc defaults Hrun Hun; simpl in Hrun.
  - by inversion Hrun.
  - apply Forall_cons in Hun as [Hb Hun].
    destruct (Block_Labels block) as [|label0 labels]; [done|].
    assert (label0 ≠ name) as Hne by (intros ->; by apply Hb).
    destruct (GetAttribute (Block_Body block) "default");
      rewrite (IH _ _ Hrun Hun); by apply lookup_insert_ne.
Qed.

(** A declared name has the default of its last declaration, or the null
    literal when that declaration has no default. *)
Lemma buildDefaults_declared (blocks : list Block) (block : Block)
    (name : string) (labels : list string) :
  forall acc defaults : gmap string Tokens,
    Legacy.buildDefaults (blocks ++ [block]) acc = Done defaults ->
    Block_Labels block = name :: labels ->
    defaults !! name
    = Some (match GetAttribute (Block_Body block) "default" with
            | Some defaultAttribute => defaultAttribute
            | None => TokensForValue (NullVal cty_String)
            end).
Proof.
  induction blocks as [|b rest IH]; intros acc defaults Hrun Hl; simpl in Hrun.
  - rewrite Hl in Hrun.
    destruct (GetAttribute (Block_Body block) "default");
      inversion Hrun; subst; apply lookup_insert_eq.
  - destruct (Block_Labels b) as [|label0 ls]; [done|].
    destruct (GetAttribute (Block_Body b) "default"); by eapply IH.
Qed.

(** The expression built for a name that no variable declares has nothing
    between the last comma and the closing parenthesis. *)
Lemma undeclared_name_text (varBlocks : list Block)
    (defaults : gmap string Tokens) (name : string) :
  Legacy.buildDefaults varBlocks ∅ = Done defaults ->
  Forall (fun block => head (Block_Labels block) ≠ Some name) varBlocks ->
  tokenText <$> Legacy.ternary defaults name
  = ternaryText name (escapeQuotedStringLit name) [].
Proof.
  intros Hrun Hun. rewrite ternary_text. unfold Legacy.defaultsIndex.
  by rewrite (buildDefaults_undeclared _ _ _ _ Hrun Hun), lookup_empty.
Qed.

End LegacyFacts.

(** C3, on the code. The variables file declares [size] with the default
    "10"; the module block of the consumer document sets source, size and
    count, the last two with a try call.  The rewrite leaves source as it
    is, gives size the ternary whose lookup ends with the declared default,
    and gives count, which no variable declares, a ternary whose lookup has
    no third argument: no null literal stands there. *)
Theorem undeclared_name_gets_no_default :
  exists (file : File) (block : Block),
    @Legacy.rewriteLookups sampleHcl map_to_list sizeFile sampleConsumer = Done file /\
    Blocks (File_Body file) = [block] /\
    GetAttribute (Block_Body block) "source" = Some (Samples.quoted 1 "./modules/addon") /\
    (tokensText <$> GetAttribute (Block_Body block) "size")
    = Some (ternaryText "size" "size"
              [(TokenOQuote, dquote); (TokenQuotedLit, "10"); (TokenCQuote, dquote)]) /\
    (tokensText <$> GetAttribute (Block_Body block) "count")
    = Some (ternaryText "count" "count" []) /\
    (Tokens_Bytes <$> GetAttribute (Block_Body block) "count")
    = Some ("var.count!=null?var.count:lookup(local.addon," +:+ dquote +:+ "count"
            +:+ dquote +:+ ",)").
Proof.
  eexists _, _. split; [vm_compute; reflexivity|].
  split; [reflexivity|]. split; [reflexivity|]. split; [reflexivity|].
  split; reflexivity.
Qed.

(** * Further properties of the code *)

(** ** Extraction *)

Section Extraction.
Context `{HclWrite} `{Filepath}.

Lemma appendVariableBlocks_items (blocks : list Block) :
  forall varFile : Body,
    Sync.appendVariableBlocks blocks varFile
    = varFile ++ (ItemBlock <$> filter extractable blocks).
Proof.
  induction blocks as [|block rest IH]; intros varFile; simpl.
  - by rewrite app_nil_r.
  - rewrite filter_cons. unfold extractable at 2.
    case_decide as Hty.
    + rewrite IH. case_decide as Hex; [|done]. by destruct Hex.
    + case_decide as Hlen.
      * rewrite IH. case_decide as Hex; [|done].
        destruct Hex as [_ Hl]. by destruct (Block_Labels block).
      * rewrite IH. unfold AppendBlock. rewrite <- app_assoc. simpl.
        case_decide as Hex; [done|]. exfalso. apply Hex. split.
        -- destruct (decide (Block_Type block = "variable")); [done|].
           by destruct Hty.
        -- intros E. by rewrite E in Hlen.
Qed.

Lemma Blocks_ItemBlock (blocks : list Block) :
  Blocks (ItemBlock <$> blocks) = blocks.
Proof. induction blocks as [|block rest IH]; simpl; [done|]. f_equal. exact IH. Qed.



End Extraction.

(** X1. When the file can be read and parses, [extractVariables] returns a
    file that holds the blocks of type variable with at least one label, in
    the order of the source, and nothing else; the world is left as it
    was. *)
Theorem extractVariables_keeps_variables `{HclWrite} `{Filepath} (ctx : Context)
    (filePath src : string) (file : File) (w : World) :
  files w !! filePath = Some (inr src) ->
  ParseConfig src (filepath_Base filePath) = inr file ->
  Sync.extractVariables ctx filePath w
  = (inr (mkFile (ItemBlock <$> filter extractable (Blocks (File_Body file)))), w).
Proof.
  intros Hfile Hparse. unfold Sync.extractVariables, os_ReadFile.
  rewrite Hfile, Hparse. by rewrite appendVariableBlocks_items.
Qed.

Lemma extractVariables_keeps_variables_witness :
  @Sync.extractVariables sampleHcl Samples.plainPaths neverCancelled
    "work/modules/addon-x/modules/addon-x/variables.tf" sampleWorld
  = (inr (mkFile [ItemBlock Samples.sizeBlock]), sampleWorld).
Proof.
  apply (@extractVariables_keeps_variables sampleHcl Samples.plainPaths neverCancelled
           "work/modules/addon-x/modules/addon-x/variables.tf" sizeSource sizeFile
           sampleWorld).
  - vm_compute. reflexivity.
  - vm_compute. reflexivity.
Defined.

(** ** What processing one module does to the world *)

Section ModuleFrame.
Context `{HclWrite} `{Filepath}.




End ModuleFrame.





(** On a device that takes nine more bytes, the target is left with the
    first nine bytes of the banner, and the error names the write. *)
Example partial_write_sample :
  exists err w',
    @Sync.processModule sampleHcl Samples.plainPaths sampleProcessor neverCancelled
      "addon-x" fullDiskWorld = (Done (Some err), w') /\
    files w' !! "out/variables-addon-x.tf"
    = Some (inr (String.substring 0 9 Sync.banner)) /\
    err = fmt_Errorf "failed to sync addon variables: %w" []
            (Some (fmt_Errorf "failed to write file %q: %w"
                     [FmtString "out/variables-addon-x.tf"]
                     (Some (PathError "write" "out/variables-addon-x.tf"
                              (SyscallErrno ENOSPC))))).
Proof. eexists _, _. split; [vm_compute; reflexivity|]. split; vm_compute; reflexivity. Qed.

(** X4. When processing one module returns nil, the source file was read
    and parsed, the synthesizer returned a document for the declarations
    extracted from it, and the target file now holds the banner line
    followed by the bytes of that document; no other file differs. *)
Theorem processModule_success `{HclWrite} `{Filepath}
    (vp : Sync.VariableProcessor) (ctx : Context) (moduleName : string)
    (w w' : World) :
  Sync.processModule vp ctx moduleName w = (Done nilError, w') ->
  exists (src : string) (parsed out : File),
    files w !! filepath_Join [Sync.modulesDir vp; moduleName; "modules"; moduleName;
                              Sync.sourceVariableFileName] = Some (inr src) /\
    ParseConfig src
      (filepath_Base (filepath_Join [Sync.modulesDir vp; moduleName; "modules";
                                     moduleName; Sync.sourceVariableFileName]))
    = inr parsed /\
    Sync.synthesize
      (mkFile (ItemBlock <$> filter extractable (Blocks (File_Body parsed))))
    = Done out /\
    files w'
    = <[filepath_Join [Sync.targetDir vp; Sync.targetVariableFilePattern moduleName]
        := inr (Sync.banner +:+ newline +:+ File_Bytes out)]> (files w).
Proof.
  unfold Sync.processModule, Sync.extractVariables, os_ReadFile. simpl.
  set (sourcePath := filepath_Join [Sync.modulesDir vp; _; _; _; _]).
  destruct (files w !! sourcePath) as [[e|src]|] eqn:Efile; [done| |done].
  destruct (ParseConfig src (filepath_Base sourcePath)) as [diags|parsed] eqn:Eparse;
    [done|].
  rewrite appendVariableBlocks_items. simpl.
  unfold Sync.syncAddonVariables.
  destruct (Sync.synthesize _) as [out|msg] eqn:Esyn; [|done]. simpl.
  unfold os_WriteFile. simpl.
  set (targetPath := filepath_Join [Sync.targetDir vp; _]).
  destruct (files w !! targetPath) as [[e|data]|] eqn:Etarget; simpl; [done| |];
    (destruct (faults w !! targetPath) as [[n e]|]; simpl; [done|]);
    intros [= <-]; by exists src, parsed, out.
Qed.

Lemma processModule_success_witness :
  exists (w' : World) (src : string) (parsed out : File),
    @Sync.processModule sampleHcl Samples.plainPaths sampleProcessor neverCancelled
      "addon-x" sampleWorld = (Done nilError, w') /\
    files sampleWorld !! "work/modules/addon-x/modules/addon-x/variables.tf"
    = Some (inr src) /\
    @ParseConfig sampleHcl src "work/modules/addon-x/modules/addon-x/variables.tf"
    = inr parsed /\
    @Sync.synthesize sampleHcl
      (mkFile (ItemBlock <$> filter extractable (Blocks (File_Body parsed))))
    = Done out /\
    files w'
    = <["out/variables-addon-x.tf"
        := inr (Sync.banner +:+ newline +:+ @File_Bytes sampleHcl out)]>
        (files sampleWorld).
Proof.
  eexists.
  refine ((fun Hrun =>
             match @processModule_success sampleHcl Samples.plainPaths sampleProcessor
                     neverCancelled "addon-x" sampleWorld _ Hrun with
             | ex_intro _ src (ex_intro _ parsed (ex_intro _ out Hall)) =>
                 ex_intro _ src (ex_intro _ parsed (ex_intro _ out (conj Hrun Hall)))
             end) _).
  vm_compute. reflexivity.
Defined.

(** ** What a batch does to the world *)

Section BatchInvariant.
Variable processModule : string -> M (option error).
Variable I : World -> Prop.
Hypothesis I_logAt : forall l msg attrs w, I w -> I (logAt l msg attrs w).



End BatchInvariant.



(** X6. When the modules directory cannot be listed for a reason other than
    its absence, ProcessModules returns the error of the listing, wrapped,
    whatever the processor is; the world differs by the start record and
    the error record, so no module is processed. *)
Theorem unreadable_directory_is_fatal (processModule : string -> M (option error))
    (modulesDir : string) (ctx : Context) (e : Errno) (w : World) :
  dirs w !! modulesDir = Some (inl e) ->
  e ≠ ENOENT ->
  Orchestrator.ProcessModules processModule modulesDir ctx w
  = (Done (Some (fmt_Errorf "failed to read directory %q: %w" [FmtString modulesDir]
                   (Some (PathError "open" modulesDir (SyscallErrno e))))),
     logAt LevelError "Failed to read directory"
       [("path", LogString modulesDir);
        ("error", LogErr (PathError "open" modulesDir (SyscallErrno e)))]
       (startRecord modulesDir w)).
Proof.
  intros Hdir Hne. unfold Orchestrator.ProcessModules, os_ReadDir. simpl.
  rewrite Hdir. by destruct e.
Qed.

Lemma unreadable_directory_is_fatal_witness :
  @Sync.ProcessModules sampleHcl Samples.plainPaths sampleProcessor neverCancelled
    lockedWorld
  = (Done (Some (fmt_Errorf "failed to read directory %q: %w"
                   [FmtString "work/modules"]
                   (Some (PathError "open" "work/modules" (SyscallErrno EACCES))))),
     logAt LevelError "Failed to read directory"
       [("path", LogString "work/modules");
        ("error", LogErr (PathError "open" "work/modules" (SyscallErrno EACCES)))]
       (startRecord "work/modules" lockedWorld)).
Proof.
  apply (unreadable_directory_is_fatal
           (@Sync.processModule sampleHcl Samples.plainPaths sampleProcessor
              neverCancelled)
           "work/modules" neverCancelled EACCES lockedWorld).
  - vm_compute. reflexivity.
  - discriminate.
Defined.

(** ** Cancellation *)

Section Cancellation.
Variable processModule : string -> M (option error).

Lemma Context_Err_before (ctx : Context) (k tick : nat) :
  Context_firesAt ctx = Some k -> tick < k -> Context_Err ctx tick = None.
Proof. unfold Context_Err. intros -> Hlt. case_decide; [lia|done]. Qed.

Lemma Context_Err_from (ctx : Context) (k tick : nat) :
  Context_firesAt ctx = Some k -> k <= tick ->
  Context_Err ctx tick = Some (Context_cause ctx).
Proof. unfold Context_Err. intros -> Hle. case_decide; [done|lia]. Qed.

(** A loop that is cancelled at the look [k] has passed over the entries
    before it as a full pass does, and returns the error of the context. *)
Lemma processEntries_cancelled (ctx : Context) (k : nat) :
  Context_firesAt ctx = Some k ->
  forall (entries : list DirEntry) (tick : nat) (c : Counts) (w : World)
         (exit : LoopExit) (w' : World),
    tick <= k -> k < tick + length entries ->
    Orchestrator.processEntries processModule ctx tick entries c w = (Done exit, w') ->
    exists visits w1,
      Pass processModule (take (k - tick) entries) w visits w1 /\
      exit = LoopReturn (Context_cause ctx) /\
      w' = logAt LevelWarn "Processing cancelled"
             [("error", LogErr (Context_cause ctx))] w1.
Proof.
  intros Hctx. induction entries as [|entry rest IH];
    intros tick c w exit w' Hle Hlt Hrun; simpl in Hlt; [lia|].
  simpl in Hrun. destruct (decide (k = tick)) as [->|Hne].
  - rewrite (Context_Err_from ctx tick tick Hctx) in Hrun by lia.
    inversion Hrun; subst. exists [], w. rewrite Nat.sub_diag. simpl.
    split; [constructor|done].
  - rewrite (Context_Err_before ctx k tick Hctx) in Hrun by lia.
    replace (k - tick) with (S (k - S tick)) by lia. simpl.
    destruct (DirEntry_IsDir entry) eqn:Edir; simpl in Hrun.
    + destruct (Orchestrator.skipped (DirEntry_Name entry)) eqn:Eskip.
      * apply IH in Hrun as (visits & w1 & Hpass & -> & ->); [|lia|lia].
        exists visits, w1. split; [by apply Pass_skipped|done].
      * destruct (processModule _ _) as [[[procErr|]|msg] w2] eqn:Ecall; [| |done].
        -- apply IH in Hrun as (visits & w1 & Hpass & -> & ->); [|lia|lia].
           exists ((DirEntry_Name entry, Some procErr) :: visits), w1.
           split; [by eapply (Pass_module _ _ _ _ (Some procErr))|done].
        -- apply IH in Hrun as (visits & w1 & Hpass & -> & ->); [|lia|lia].
           exists ((DirEntry_Name entry, None) :: visits), w1.
           split; [by eapply (Pass_module _ _ _ _ None)|done].
    + apply IH in Hrun as (visits & w1 & Hpass & -> & ->); [|lia|lia].
      exists visits, w1. split; [by apply Pass_ignored|done].
Qed.

(** The loop looks at the context at the looks [tick], ...,
    [tick + length entries - 1] only. *)
Lemma processEntries_looks (ctx ctx' : Context) (entries : list DirEntry) :
  forall (tick : nat) (c : Counts) (w : World),
    (forall t, tick <= t < tick + length entries ->
               Context_Err ctx t = Context_Err ctx' t) ->
    Orchestrator.processEntries processModule ctx tick entries c w
    = Orchestrator.processEntries processModule ctx' tick entries c w.
Proof.
  induction entries as [|entry rest IH]; intros tick c w Hsame; simpl; [done|].
  simpl in Hsame. rewrite (Hsame tick) by lia.
  destruct (Context_Err ctx' tick); [done|].
  assert (forall t, S tick <= t < S tick + length rest ->
                    Context_Err ctx t = Context_Err ctx' t) as Hrest.
  { intros t Ht. apply Hsame. lia. }
  destruct (DirEntry_IsDir entry); simpl; [|by apply IH].
  destruct (Orchestrator.skipped (DirEntry_Name entry)); [by apply IH|].
  destruct (processModule _ _) as [[[procErr|]|msg] w2]; [by apply IH|by apply IH|done].
Qed.

End Cancellation.

(** X7. When the context is cancelled at the look for the entry number k
    of the listing, a run that does not panic has passed over the k entries
    before it exactly as a full pass does, processes no entry from k on, and
    returns the error of the context: not the aggregate error, even if
    modules before k failed.  Its last record is the cancellation warning;
    the counters are not logged. *)
Theorem cancellation_stops_the_batch (processModule : string -> M (option error))
    (modulesDir : string) (ctx : Context) (k : nat) (entries : list DirEntry)
    (w w' : World) (r : option error) :
  Context_firesAt ctx = Some k ->
  dirs w !! modulesDir = Some (inr entries) ->
  k < length entries ->
  Orchestrator.ProcessModules processModule modulesDir ctx w = (Done r, w') ->
  r = Some (Context_cause ctx) /\
  exists visits w1,
    Pass processModule (take k entries) (startRecord modulesDir w) visits w1 /\
    visits.*1 = DirEntry_Name <$> List.filter candidate (take k entries) /\
    w' = logAt LevelWarn "Processing cancelled" [("error", LogErr (Context_cause ctx))] w1.
Proof.
  intros Hctx Hdir Hk. unfold Orchestrator.ProcessModules, os_ReadDir. simpl.
  rewrite Hdir.
  destruct (Orchestrator.processEntries _ _ _ _ _ _) as [[exit|msg] w1] eqn:Eloop;
    [|done].
  apply (processEntries_cancelled _ ctx k Hctx) in Eloop
    as (visits & w2 & Hpass & -> & ->); [|lia|simpl; lia].
  rewrite Nat.sub_0_r in Hpass. intros [= <- <-]. split; [done|].
  exists visits, w2. split; [exact Hpass|]. split; [by eapply Pass_visits|done].
Qed.

Lemma cancellation_stops_the_batch_witness :
  exists (r : option error) (w' : World),
    @Sync.ProcessModules sampleHcl Samples.plainPaths sampleProcessor expiresAtFour
      sampleWorld = (Done r, w') /\
    r = Some context_DeadlineExceeded /\
    exists visits w1,
      Pass (@Sync.processModule sampleHcl Samples.plainPaths sampleProcessor
              expiresAtFour)
           (take 4 sampleEntries) (startRecord "work/modules" sampleWorld) visits w1 /\
      visits.*1 = ["addon-bad"] /\
      w' = logAt LevelWarn "Processing cancelled"
             [("error", LogErr context_DeadlineExceeded)] w1.
Proof.
  eexists _, _. split; [vm_compute; reflexivity|].
  refine (cancellation_stops_the_batch
            (@Sync.processModule sampleHcl Samples.plainPaths sampleProcessor
               expiresAtFour)
            "work/modules" expiresAtFour 4 sampleEntries sampleWorld _ _ _ _ _ _).
  - reflexivity.
  - vm_compute. reflexivity.
  - vm_compute. lia.
  - vm_compute. reflexivity.
Defined.

(** X8. A context that is cancelled only after the look for the last entry
    of the listing is not noticed: the run is the run of a context that is
    never cancelled, and so may return nil.  An empty listing is the case
    k = 0. *)
Theorem late_cancellation_not_seen (processModule : string -> M (option error))
    (modulesDir : string) (ctx : Context) (k : nat) (entries : list DirEntry)
    (w : World) :
  Context_firesAt ctx = Some k ->
  dirs w !! modulesDir = Some (inr entries) ->
  length entries <= k ->
  Orchestrator.ProcessModules processModule modulesDir ctx w
  = Orchestrator.ProcessModules processModule modulesDir
      (mkContext None (Context_cause ctx)) w.
Proof.
  intros Hctx Hdir Hk. unfold Orchestrator.ProcessModules, os_ReadDir. simpl.
  rewrite Hdir.
  rewrite (processEntries_looks processModule ctx (mkContext None (Context_cause ctx)));
    [done|].
  intros t Ht. simpl in Ht. by rewrite (Context_Err_before ctx k t Hctx) by lia.
Qed.

Lemma late_cancellation_not_seen_witness :
  @Sync.ProcessModules sampleHcl Samples.plainPaths sampleProcessor expiresLate
    sampleWorld
  = Orchestrator.ProcessModules
      (@Sync.processModule sampleHcl Samples.plainPaths sampleProcessor expiresLate)
      "work/modules" (mkContext None context_DeadlineExceeded) sampleWorld.
Proof.
  apply (late_cancellation_not_seen
           (@Sync.processModule sampleHcl Samples.plainPaths sampleProcessor expiresLate)
           "work/modules" expiresLate 5 sampleEntries sampleWorld).
  - reflexivity.
  - vm_compute. reflexivity.
  - vm_compute. lia.
Defined.

Lemma directories_split (entries : list DirEntry) :
  length (List.filter candidate entries) + length (List.filter skippedDirectory entries)
  = length (List.filter DirEntry_IsDir entries).
Proof.
  induction entries as [|entry rest IH]; simpl; [done|].
  unfold candidate at 1, skippedDirectory at 1.
  destruct (DirEntry_IsDir entry), (Orchestrator.skipped (DirEntry_Name entry));
    simpl; lia.
Qed.

(** X9. In a run that is not cancelled and returns, the three counters
    logged in the last record add up to the number of directories in the
    listing: every directory is counted once, as processed, skipped or
    failed, and no other entry is counted. *)
Theorem counters_add_up (processModule : string -> M (option error))
    (modulesDir : string) (ctx : Context) (entries : list DirEntry)
    (w w' : World) (r : option error) :
  Context_firesAt ctx = None ->
  dirs w !! modulesDir = Some (inr entries) ->
  Orchestrator.ProcessModules processModule modulesDir ctx w = (Done r, w') ->
  exists c,
    last (logged w') = Some (finishedRecord c) /\
    processedCount c + skippedCount c + errorCount c
    = length (List.filter DirEntry_IsDir entries).
Proof.
  intros Hctx Hdir Hrun.
  destruct (ProcessModules_Pass _ _ _ _ _ _ _ Hctx Hdir Hrun)
    as (visits & c & w1 & Hpass & He & Hp & Hs & -> & ->).
  exists c. split; [simpl; apply last_snoc|].
  rewrite <- directories_split, <- Hs.
  apply Pass_visits in Hpass. apply (f_equal length) in Hpass.
  rewrite !length_fmap in Hpass. lia.
Qed.

Lemma counters_add_up_witness :
  exists (r : option error) (w' : World),
    @Sync.ProcessModules sampleHcl Samples.plainPaths sampleProcessor neverCancelled
      sampleWorld = (Done r, w') /\
    exists c,
      last (logged w') = Some (finishedRecord c) /\
      processedCount c + skippedCount c + errorCount c = 4.
Proof.
  eexists _, _. split; [vm_compute; reflexivity|].
  refine (counters_add_up
            (@Sync.processModule sampleHcl Samples.plainPaths sampleProcessor
               neverCancelled)
            "work/modules" neverCancelled sampleEntries sampleWorld _ _ _ _ _).
  - reflexivity.
  - vm_compute. reflexivity.
  - vm_compute. reflexivity.
Defined.

(** ** The synthesized document *)

Section Documents.
Context `{HclWrite}.

Lemma Sync_synthesizeBlock_skipped (block : Block) :
  Sync.synthesizeBlock block = Done None ->
  head (Block_Labels block) = Some "enabled".
Proof.
  unfold Sync.synthesizeBlock.
  destruct (Block_Labels block) as [|label0 labels]; [done|].
  case_decide as Hen; [by subst|].
  destruct (GetAttribute (Block_Body block) "type"); [|done].
  destruct (GetAttribute (Block_Body block) "description"); [|done].
  by destruct (Sync.describe _ _).
Qed.

Lemma Legacy_synthesizeBlock_skipped (block : Block) :
  Legacy.synthesizeBlock block = Done None ->
  head (Block_Labels block) = Some "enabled".
Proof.
  unfold Legacy.synthesizeBlock.
  destruct (Block_Labels block) as [|label0 labels]; [done|].
  case_decide as Hen; [by subst|done].
Qed.

(** The items a synthesizer appends for the blocks it emits. *)
Lemma Sync_synthesizeBlocks_items (blocks : list Block) :
  forall file out : Body,
    Sync.synthesizeBlocks blocks file = Done out ->
    exists emitted,
      out = file ++ mjoin ((fun variable =>
                              [ItemTokens [mkToken TokenNewline newline 0];
                               ItemBlock variable]) <$> emitted) /\
      Block_Labels <$> emitted
      = filter (fun labels => head labels ≠ Some "enabled") (Block_Labels <$> blocks).
Proof.
  induction blocks as [|block rest IH]; intros file out Hrun; simpl in Hrun.
  - inversion Hrun; subst. exists []. simpl. by rewrite app_nil_r.
  - rewrite fmap_cons, filter_cons.
    destruct (Sync.synthesizeBlock block) as [[variable|]|msg] eqn:E; [| |done].
    + apply IH in Hrun as (emitted & -> & Hlabels).
      destruct (Sync_synthesizeBlock_labels _ _ E) as [Hl Hne].
      exists (variable :: emitted). split.
      * unfold AppendBlock, AppendNewline. simpl. by rewrite <- !app_assoc.
      * case_decide; [|done]. by rewrite fmap_cons, Hl, Hlabels.
    + apply IH in Hrun as (emitted & -> & Hlabels).
      apply Sync_synthesizeBlock_skipped in E.
      exists emitted. split; [done|]. by case_decide.
Qed.

Lemma Legacy_synthesizeBlocks_items (blocks : list Block) :
  forall file out : Body,
    Legacy.synthesizeBlocks blocks file = Done out ->
    exists emitted,
      out = file ++ mjoin ((fun variable =>
                              [ItemTokens [mkToken TokenNewline newline 0];
                               ItemBlock variable]) <$> emitted) /\
      Block_Labels <$> emitted
      = filter (fun labels => head labels ≠ Some "enabled") (Block_Labels <$> blocks).
Proof.
  induction blocks as [|block rest IH]; intros file out Hrun; simpl in Hrun.
  - inversion Hrun; subst. exists []. simpl. by rewrite app_nil_r.
  - rewrite fmap_cons, filter_cons.
    destruct (Legacy.synthesizeBlock block) as [[variable|]|msg] eqn:E; [| |done].
    + apply IH in Hrun as (emitted & -> & Hlabels).
      destruct (Legacy_synthesizeBlock_labels _ _ E) as [Hl Hne].
      exists (variable :: emitted). split.
      * unfold AppendBlock, AppendNewline. simpl. by rewrite <- !app_assoc.
      * case_decide; [|done]. by rewrite fmap_cons, Hl, Hlabels.
    + apply IH in Hrun as (emitted & -> & Hlabels).
      apply Legacy_synthesizeBlock_skipped in E.
      exists emitted. split; [done|]. by case_decide.
Qed.

Lemma Blocks_pairs (emitted : list Block) :
  Blocks (mjoin ((fun variable =>
                    [ItemTokens [mkToken TokenNewline newline 0]; ItemBlock variable])
                   <$> emitted))
  = emitted.
Proof. induction emitted as [|v rest IH]; simpl; [done|]. f_equal. exact IH. Qed.

End Documents.

(** X10. A document that either synthesizer produces is, for each block it
    emits, a newline followed by the block, and nothing else; the labels of
    the emitted blocks are the labels of the declarations given, without
    those named "enabled", in the order given. *)
Theorem synthesized_in_source_order `{HclWrite} (varFile file : File) :
  Sync.synthesize varFile = Done file \/ Legacy.synthesize varFile = Done file ->
  File_Body file
  = mjoin ((fun variable =>
              [ItemTokens [mkToken TokenNewline newline 0]; ItemBlock variable])
             <$> Blocks (File_Body file)) /\
  Block_Labels <$> Blocks (File_Body file)
  = filter (fun labels => head labels ≠ Some "enabled")
           (Block_Labels <$> Blocks (File_Body varFile)).
Proof.
  intros [Hrun|Hrun].
  - unfold Sync.synthesize in Hrun.
    destruct (Sync.synthesizeBlocks _ _) as [out|] eqn:E; [|done].
    inversion Hrun; subst; simpl.
    apply Sync_synthesizeBlocks_items in E as (emitted & -> & Hlabels). simpl.
    by rewrite Blocks_pairs.
  - unfold Legacy.synthesize in Hrun.
    destruct (Legacy.synthesizeBlocks _ _) as [out|] eqn:E; [|done].
    inversion Hrun; subst; simpl.
    apply Legacy_synthesizeBlocks_items in E as (emitted & -> & Hlabels). simpl.
    by rewrite Blocks_pairs.
Qed.

Lemma synthesized_in_source_order_witness :
  exists file : File,
    @Sync.synthesize (Samples.plainHcl ∅) sampleVarFile = Done file /\
    File_Body file
    = mjoin ((fun variable =>
                [ItemTokens [mkToken TokenNewline newline 0]; ItemBlock variable])
               <$> Blocks (File_Body file)) /\
    Block_Labels <$> Blocks (File_Body file) = [["name"]; ["replicas"]; ["suffix"]].
Proof.
  eexists. split; [vm_compute; reflexivity|].
  apply (@synthesized_in_source_order (Samples.plainHcl ∅) sampleVarFile).
  left. vm_compute. reflexivity.
Defined.

(** ** The synthesized block *)

Section BlockShape.
Context `{HclWrite}.

Lemma Blocks_SetAttributeRaw (b : Body) (name : string) (tokens : Tokens) :
  Blocks (SetAttributeRaw b name tokens) = Blocks b.
Proof.
  unfold SetAttributeRaw. destruct (GetAttribute b name).
  - induction b as [|[n e|blk|ts] b IH]; simpl; try done.
    + by case_decide.
    + by rewrite IH.
  - rewrite Blocks_app. simpl. by rewrite app_nil_r.
Qed.

Lemma quoteFree_ReplaceAll (s : string) :
  quoteFree (GoStrings.ReplaceAll s dquote "") = true.
Proof.
  change (GoStrings.ReplaceAll s dquote "") with (GoStrings.replaceFrom dquote "" s 0).
  induction s as [|a s IH]; cbn [GoStrings.replaceFrom]; [done|].
  rewrite prefix_dquote.
  destruct (Ascii.eqb a (Ascii.ascii_of_nat 34)) eqn:Ea; [exact IH|].
  cbn [quoteFree]. by rewrite Ea, IH.
Qed.

End BlockShape.

(** X11. A block the current synthesizer emits is of type variable, has
    the labels of its source, and has for body the type attribute with the
    tokens of the source, the default attribute, and at most a description
    attribute, in that order: the other attributes of the source and the
    blocks nested in it are not carried over. *)
Theorem current_block_shape `{HclWrite} (block variable : Block) :
  Sync.synthesizeBlock block = Done (Some variable) ->
  Block_Type variable = "variable" /\
  Block_Labels variable = Block_Labels block /\
  exists typeExpr,
    GetAttribute (Block_Body block) "type" = Some typeExpr /\
    (Block_Body variable
     = [ItemAttr "type" typeExpr;
        ItemAttr "default" (TokensForValue (NullVal cty_String))]
     \/ exists text,
         Block_Body variable
         = [ItemAttr "type" typeExpr;
            ItemAttr "default" (TokensForValue (NullVal cty_String));
            ItemAttr "description" (TokensForValue (StringVal text))]).
Proof.
  unfold Sync.synthesizeBlock.
  destruct (Block_Labels block) as [|label0 labels]; [done|].
  case_decide; [done|].
  destruct (GetAttribute (Block_Body block) "type") as [typeExpr|]; [|done].
  destruct (GetAttribute (Block_Body block) "description").
  - destruct (Sync.describe _ _) as [text|]; [|done]. intros [= <-].
    split; [done|]. split; [done|]. exists typeExpr. split; [done|].
    right. by exists text.
  - intros [= <-]. split; [done|]. split; [done|]. exists typeExpr.
    split; [done|]. by left.
Qed.

Lemma current_block_shape_witness :
  exists variable,
    @Sync.synthesizeBlock (Samples.plainHcl ∅) guardedBlock = Done (Some variable) /\
    Block_Type variable = "variable" /\
    Block_Labels variable = ["token"] /\
    exists typeExpr,
      GetAttribute (Block_Body guardedBlock) "type" = Some typeExpr /\
      (Block_Body variable
       = [ItemAttr "type" typeExpr;
          ItemAttr "default" (@TokensForValue (Samples.plainHcl ∅) (NullVal cty_String))]
       \/ exists text,
           Block_Body variable
           = [ItemAttr "type" typeExpr;
              ItemAttr "default"
                (@TokensForValue (Samples.plainHcl ∅) (NullVal cty_String));
              ItemAttr "description"
                (@TokensForValue (Samples.plainHcl ∅) (StringVal text))]).
Proof.
  eexists. split; [vm_compute; reflexivity|].
  apply (@current_block_shape (Samples.plainHcl ∅) guardedBlock).
  vm_compute. reflexivity.
Defined.

(** X12. A block the older synthesizer emits is its source block with the
    default set and, at most, the description changed: the type, the
    labels, the nested blocks and every attribute other than default and
    description are those of the source. *)
Theorem legacy_block_kept `{HclWrite} (block variable : Block) :
  Legacy.synthesizeBlock block = Done (Some variable) ->
  Block_Type variable = Block_Type block /\
  Block_Labels variable = Block_Labels block /\
  Blocks (Block_Body variable) = Blocks (Block_Body block) /\
  forall name,
    name ≠ "default" -> name ≠ "description" ->
    GetAttribute (Block_Body variable) name = GetAttribute (Block_Body block) name.
Proof.
  unfold Legacy.synthesizeBlock.
  destruct (Block_Labels block) as [|label0 labels] eqn:El; [done|].
  case_decide; [done|]. intros [= <-]. simpl. unfold SetAttributeValue.
  split; [done|]. split; [done|]. split.
  - rewrite Blocks_SetAttributeRaw.
    destruct (GetAttribute (Block_Body block) "description"); [|done].
    destruct (GetAttribute (Block_Body block) "default"); [|done].
    apply Blocks_SetAttributeRaw.
  - intros name Hdef Hdesc. rewrite GetAttribute_Set_ne by done.
    destruct (GetAttribute (Block_Body block) "description"); [|done].
    destruct (GetAttribute (Block_Body block) "default"); [|done].
    by rewrite GetAttribute_Set_ne.
Qed.

Lemma legacy_block_kept_witness :
  exists variable,
    @Legacy.synthesizeBlock (Samples.plainHcl ∅) guardedBlock = Done (Some variable) /\
    Block_Type variable = "variable" /\
    Block_Labels variable = ["token"] /\
    Blocks (Block_Body variable) = Blocks (Block_Body guardedBlock) /\
    forall name,
      name ≠ "default" -> name ≠ "description" ->
      GetAttribute (Block_Body variable) name
      = GetAttribute (Block_Body guardedBlock) name.
Proof.
  eexists. split; [vm_compute; reflexivity|].
  apply (@legacy_block_kept (Samples.plainHcl ∅) guardedBlock).
  vm_compute. reflexivity.
Defined.

(** X13. On the declarations that [extractVariables] keeps of any parsed
    file, the two steps of the legacy engine do not panic: the table of
    defaults is built and the consumer document rewritten, and the older
    synthesizer returns a document, whether or not the declarations have a
    type. *)
Theorem legacy_steps_return `{HclWrite}
    (rangeOrder : gmap string Tokens -> list (string * Tokens))
    (parsed consumer : File) :
  let varFile :=
    mkFile (ItemBlock <$> filter extractable (Blocks (File_Body parsed))) in
  (exists file, Legacy.rewriteLookups rangeOrder varFile consumer = Done file) /\
  (exists file, Legacy.synthesize varFile = Done file).
Proof.
  simpl.
  assert (Forall (fun block => Block_Labels block ≠ [])
                 (filter extractable (Blocks (File_Body parsed)))) as Hlab.
  { apply Forall_forall. intros block Hin.
    by apply list_elem_of_filter in Hin as [[_ Hl] _]. }
  revert Hlab. generalize (filter extractable (Blocks (File_Body parsed))).
  intros blocks Hlab. split.
  - unfold Legacy.rewriteLookups. simpl. rewrite Blocks_ItemBlock.
    assert (forall acc, exists defaults, Legacy.buildDefaults blocks acc = Done defaults)
      as Hbuild.
    { induction Hlab as [|block rest Hl _ IH]; intros acc; simpl; [by eexists|].
      destruct (Block_Labels block); [done|].
      destruct (GetAttribute (Block_Body block) "default"); apply IH. }
    destruct (Hbuild ∅) as [defaults ->]. by eexists.
  - unfold Legacy.synthesize. simpl. rewrite Blocks_ItemBlock.
    assert (forall file, exists out, Legacy.synthesizeBlocks blocks file = Done out)
      as Hloop.
    { induction Hlab as [|block rest Hl _ IH]; intros file; simpl; [by eexists|].
      unfold Legacy.synthesizeBlock at 1.
      destruct (Block_Labels block); [done|]. case_decide; apply IH. }
    destruct (Hloop []) as [out ->]. by eexists.
Qed.

(** X14. A declaration without a description gets none: the block either
    synthesizer emits for it has no description attribute. *)
Theorem no_description_none_added `{HclWrite} (block variable : Block) :
  GetAttribute (Block_Body block) "description" = None ->
  Sync.synthesizeBlock block = Done (Some variable)
  \/ Legacy.synthesizeBlock block = Done (Some variable) ->
  GetAttribute (Block_Body variable) "description" = None.
Proof.
  intros Hd [Hrun|Hrun].
  - revert Hrun. unfold Sync.synthesizeBlock.
    destruct (Block_Labels block) as [|label0 labels]; [done|].
    case_decide; [done|].
    destruct (GetAttribute (Block_Body block) "type"); [|done].
    rewrite Hd. by intros [= <-].
  - revert Hrun. unfold Legacy.synthesizeBlock.
    destruct (Block_Labels block) as [|label0 labels]; [done|].
    case_decide; [done|]. rewrite Hd. intros [= <-]. simpl.
    unfold SetAttributeValue. by rewrite GetAttribute_Set_ne.
Qed.

Lemma no_description_none_added_witness :
  exists variable,
    @Sync.synthesizeBlock (Samples.plainHcl ∅) guardedBlock = Done (Some variable) /\
    GetAttribute (Block_Body variable) "description" = None.
Proof.
  eexists. split; [vm_compute; reflexivity|].
  apply (@no_description_none_added (Samples.plainHcl ∅) guardedBlock).
  - reflexivity.
  - left. vm_compute. reflexivity.
Defined.

(** X15. A declaration with a description and no default.  The current
    synthesizer writes the description anew, as the string value of its
    text without the quotes around it and without any quote left inside,
    and appends nothing; the older synthesizer leaves the tokens of the
    description as they are. *)
Theorem description_without_default `{HclWrite} (block : Block) (d : Tokens) :
  GetAttribute (Block_Body block) "description" = Some d ->
  GetAttribute (Block_Body block) "default" = None ->
  (forall variable,
      Sync.synthesizeBlock block = Done (Some variable) ->
      exists text,
        text = GoStrings.ReplaceAll
                 (GoStrings.Trim (GoStrings.TrimSpace (Tokens_Bytes d)) dquote)
                 dquote "" /\
        quoteFree text = true /\
        GetAttribute (Block_Body variable) "description"
        = Some (TokensForValue (StringVal text))) /\
  (forall variable,
      Legacy.synthesizeBlock block = Done (Some variable) ->
      GetAttribute (Block_Body variable) "description" = Some d).
Proof.
  intros Hd Hv. split; intros variable.
  - unfold Sync.synthesizeBlock, Sync.describe.
    destruct (Block_Labels block) as [|label0 labels]; [done|].
    case_decide; [done|].
    destruct (GetAttribute (Block_Body block) "type"); [|done].
    rewrite Hd, Hv. intros [= <-]. eexists. split; [reflexivity|].
    split; [apply quoteFree_ReplaceAll|]. reflexivity.
  - unfold Legacy.synthesizeBlock.
    destruct (Block_Labels block) as [|label0 labels]; [done|].
    case_decide; [done|]. rewrite Hd, Hv. intros [= <-]. simpl.
    unfold SetAttributeValue. by rewrite GetAttribute_Set_ne.
Qed.

Lemma description_without_default_witness :
  exists current legacy,
    @Sync.synthesizeBlock (Samples.plainHcl ∅) plainBlock = Done (Some current) /\
    @Legacy.synthesizeBlock (Samples.plainHcl ∅) plainBlock = Done (Some legacy) /\
    (exists text,
        text = "say " +:+ String (Ascii.ascii_of_nat 92) "hi"
               +:+ String (Ascii.ascii_of_nat 92) "" /\
        quoteFree text = true /\
        GetAttribute (Block_Body current) "description"
        = Some (@TokensForValue (Samples.plainHcl ∅) (StringVal text))) /\
    GetAttribute (Block_Body legacy) "description"
    = GetAttribute (Block_Body plainBlock) "description".
Proof.
  eexists _, _. split; [vm_compute; reflexivity|]. split; [vm_compute; reflexivity|].
  destruct (@description_without_default (Samples.plainHcl ∅) plainBlock
              (Samples.quoted 1 ("say " +:+ String (Ascii.ascii_of_nat 92) dquote
                                 +:+ "hi" +:+ String (Ascii.ascii_of_nat 92) dquote))
              eq_refl eq_refl) as [Hcurrent Hlegacy].
  split; [apply Hcurrent|apply Hlegacy]; vm_compute; reflexivity.
Defined.

(** ** More on the legacy rewrite *)

Section Markers.

Lemma prefix_app (s a c : string) :
  String.prefix s a = true -> String.prefix s (a +:+ c) = true.
Proof.
  revert a. induction s as [|x s IH]; intros a; [by destruct a, c|].
  destruct a as [|y a]; [done|].
  change (String y a +:+ c) with (String y (a +:+ c)). cbn [String.prefix].
  destruct (Ascii.ascii_dec x y); [apply IH|done].
Qed.

Lemma prefix_refl (s : string) : String.prefix s s = true.
Proof.
  induction s as [|x s IH]; [done|]. cbn [String.prefix].
  by destruct (Ascii.ascii_dec x x).
Qed.

Lemma Contains_refl (s : string) : GoStrings.Contains s s = true.
Proof. destruct s as [|x s]; cbn [GoStrings.Contains]; by rewrite prefix_refl. Qed.

Lemma Contains_app_l (a c s : string) :
  GoStrings.Contains a s = true -> GoStrings.Contains (a +:+ c) s = true.
Proof.
  induction a as [|y a IH].
  - cbn [GoStrings.Contains]. rewrite orb_false_r. intros Hp. destruct s; [|done].
    destruct c; simpl; done.
  - change (String y a +:+ c) with (String y (a +:+ c)). cbn [GoStrings.Contains].
    intros [Hp|Hc]%orb_true_iff.
    + apply orb_true_iff. left.
      by apply (prefix_app s (String y a) c).
    + apply orb_true_iff. right. by apply IH.
Qed.

Lemma Contains_app_r (a b s : string) :
  GoStrings.Contains b s = true -> GoStrings.Contains (a +:+ b) s = true.
Proof.
  intros Hb. induction a as [|y a IH]; [done|].
  change (String y a +:+ b) with (String y (a +:+ b)). cbn [GoStrings.Contains].
  apply orb_true_iff. by right.
Qed.

(** A marker inside the bytes of one token is a marker of the expression. *)
Lemma Contains_Tokens_Bytes (ts : Tokens) (t : Token) (s : string) :
  t ∈ ts -> GoStrings.Contains (Token_Bytes t) s = true ->
  GoStrings.Contains (Tokens_Bytes ts) s = true.
Proof.
  intros Hin Hc. induction ts as [|t0 ts IH]; [by apply elem_of_nil in Hin|].
  cbn [Tokens_Bytes]. apply Contains_app_r.
  apply elem_of_cons in Hin as [<-|Hin].
  - by apply Contains_app_l.
  - apply Contains_app_r. by apply IH.
Qed.

End Markers.

Section LegacyMore.
Context `{HclWrite}.
Variable rangeOrder : gmap string Tokens -> list (string * Tokens).
Hypothesis rangeOrder_perm : forall m, rangeOrder m ≡ₚ map_to_list m.

(** The expression built for an attribute has the marker lookup. *)
Lemma ternary_marked (defaults : gmap string Tokens) (name : string) :
  Legacy.hasMarker (Tokens_Bytes (Legacy.ternary defaults name)) = true.
Proof.
  assert ((TokenIdent, "lookup") ∈ tokenText <$> Legacy.ternary defaults name) as Hin.
  { rewrite ternary_text. unfold ternaryText.
    apply elem_of_app. left. set_solver. }
  apply list_elem_of_fmap in Hin as (t & Ht & Hin).
  unfold Legacy.hasMarker. apply orb_true_iff. right.
  apply (Contains_Tokens_Bytes _ t); [done|].
  unfold tokenText in Ht. injection Ht as _ <-. apply Contains_refl.
Qed.

Lemma rewriteBlock_header (defaults : gmap string Tokens) (block : Block) :
  Block_Type (Legacy.rewriteBlock rangeOrder defaults block) = Block_Type block /\
  Block_Labels (Legacy.rewriteBlock rangeOrder defaults block) = Block_Labels block.
Proof. unfold Legacy.rewriteBlock. by case_decide. Qed.

Lemma rewriteBlock_twice (defaults : gmap string Tokens) (block : Block) (name : string) :
  GetAttribute
    (Block_Body (Legacy.rewriteBlock rangeOrder defaults
                   (Legacy.rewriteBlock rangeOrder defaults block))) name
  = GetAttribute (Block_Body (Legacy.rewriteBlock rangeOrder defaults block)) name.
Proof.
  destruct (decide (Block_Type block = "module")) as [Hty|Hty].
  - destruct (GetAttribute (Block_Body block) name) as [e|] eqn:Hget.
    + rewrite (rewriteBlock_attribute rangeOrder rangeOrder_perm defaults
                 (Legacy.rewriteBlock rangeOrder defaults block) name
                 (if Legacy.hasMarker (Tokens_Bytes e)
                  then Legacy.ternary defaults name else e)).
      * rewrite (rewriteBlock_attribute rangeOrder rangeOrder_perm defaults block name e)
          by done.
        destruct (Legacy.hasMarker (Tokens_Bytes e)) eqn:Em.
        -- by rewrite ternary_marked.
        -- by rewrite Em.
      * by rewrite (proj1 (rewriteBlock_header defaults block)).
      * by apply rewriteBlock_attribute.
    + assert (forall b, Block_Type b = "module" ->
                        GetAttribute (Block_Body b) name = None ->
                        GetAttribute (Block_Body (Legacy.rewriteBlock rangeOrder defaults b))
                          name = None) as Hnone.
      { intros b Hb Hn. unfold Legacy.rewriteBlock. case_decide; [done|]. simpl.
        by rewrite rewriteAttributes_get, (existsb_marked rangeOrder rangeOrder_perm),
          Attributes_lookup, Hn. }
      rewrite (Hnone block Hty Hget). apply Hnone.
      * by rewrite (proj1 (rewriteBlock_header defaults block)).
      * by apply Hnone.
  - by rewrite !(rewriteBlock_other rangeOrder defaults block Hty).
Qed.

(** The entry of a name in the table: that of its last declaration. *)
Lemma buildDefaults_last (before after : list Block) (declaration : Block)
    (name : string) (labels : list string) :
  forall acc defaults : gmap string Tokens,
    Legacy.buildDefaults (before ++ declaration :: after) acc = Done defaults ->
    Block_Labels declaration = name :: labels ->
    Forall (fun block => head (Block_Labels block) ≠ Some name) after ->
    defaults !! name
    = Some (match GetAttribute (Block_Body declaration) "default" with
            | Some defaultAttribute => defaultAttribute
            | None => TokensForValue (NullVal cty_String)
            end).
Proof.
  induction before as [|b rest IH]; intros acc defaults Hrun Hl Hafter; simpl in Hrun.
  - rewrite Hl in Hrun.
    destruct (GetAttribute (Block_Body declaration) "default");
      rewrite (buildDefaults_undeclared _ _ _ _ Hrun Hafter); apply lookup_insert_eq.
  - destruct (Block_Labels b) as [|label0 ls]; [done|].
    destruct (GetAttribute (Block_Body b) "default"); by eapply IH.
Qed.

End LegacyMore.

(** X16. The legacy rewrite, on the files: in every module block of the
    consumer document, whatever order Go ranges over its attributes in, an
    attribute whose expression has one of the two markers now has the
    expression built for its name from the table of defaults, and every
    other attribute has the tokens it had; the block keeps its place, type
    and labels. *)
Theorem marked_attributes_rewritten `{HclWrite}
    (rangeOrder : gmap string Tokens -> list (string * Tokens))
    (varFile consumer file' : File) (i : nat) (block : Block) (name : string)
    (e : Tokens) :
  (forall m, rangeOrder m ≡ₚ map_to_list m) ->
  Legacy.rewriteLookups rangeOrder varFile consumer = Done file' ->
  Blocks (File_Body consumer) !! i = Some block ->
  Block_Type block = "module" ->
  GetAttribute (Block_Body block) name = Some e ->
  exists defaults block',
    Legacy.buildDefaults (Blocks (File_Body varFile)) ∅ = Done defaults /\
    Blocks (File_Body file') !! i = Some block' /\
    Block_Type block' = "module" /\
    Block_Labels block' = Block_Labels block /\
    GetAttribute (Block_Body block') name
    = Some (if Legacy.hasMarker (Tokens_Bytes e) then Legacy.ternary defaults name
            else e).
Proof.
  intros Hperm Hrun Hi Hty Hget. unfold Legacy.rewriteLookups in Hrun.
  destruct (Legacy.buildDefaults _ _) as [defaults|] eqn:Ebuild; [|done].
  injection Hrun as <-. simpl.
  exists defaults, (Legacy.rewriteBlock rangeOrder defaults block).
  split; [done|]. split.
  { by rewrite rewriteBlocks_Blocks, list_lookup_fmap, Hi. }
  destruct (rewriteBlock_header rangeOrder defaults block) as [-> ->].
  split; [done|]. split; [done|]. by apply rewriteBlock_attribute.
Qed.

Lemma marked_attributes_rewritten_witness :
  exists file' defaults block',
    @Legacy.rewriteLookups sampleHcl map_to_list sizeFile sampleConsumer = Done file' /\
    @Legacy.buildDefaults sampleHcl (Blocks (File_Body sizeFile)) ∅ = Done defaults /\
    Blocks (File_Body file') !! 0 = Some block' /\
    Block_Type block' = "module" /\
    Block_Labels block' = ["addon"] /\
    GetAttribute (Block_Body block') "size"
    = Some (@Legacy.ternary sampleHcl defaults "size").
Proof.
  eexists.
  refine ((fun Hrun =>
             match @marked_attributes_rewritten sampleHcl map_to_list sizeFile
                     sampleConsumer _ 0 _ "size"
                     (tryCall (Samples.ident 0 "size") (Samples.quoted 1 "10"))
                     (fun m => reflexivity _) Hrun eq_refl eq_refl eq_refl with
             | ex_intro _ defaults (ex_intro _ block' Hall) =>
                 ex_intro _ defaults (ex_intro _ block' (conj Hrun Hall))
             end) _).
  vm_compute. reflexivity.
Defined.

(** X17. The lookup built for a declared variable.  When the last
    declaration of a name has a default, the expression built for the name
    reads var.NAME != null ? var.NAME : lookup(local.addon, "NAME", DEFAULT)
    with the tokens of that default; when it has none, the third argument is
    the null literal. *)
Theorem declared_default_in_lookup `{HclWrite} (before after : list Block)
    (declaration : Block) (name : string) (labels : list string)
    (defaults : gmap string Tokens) :
  Legacy.buildDefaults (before ++ declaration :: after) ∅ = Done defaults ->
  Block_Labels declaration = name :: labels ->
  Forall (fun block => head (Block_Labels block) ≠ Some name) after ->
  tokensText (Legacy.ternary defaults name)
  = ternaryText name (escapeQuotedStringLit name)
      (match GetAttribute (Block_Body declaration) "default" with
       | Some defaultAttribute => tokensText defaultAttribute
       | None => [(TokenIdent, "null")]
       end).
Proof.
  intros Hrun Hl Hafter. unfold tokensText. rewrite ternary_text.
  unfold Legacy.defaultsIndex.
  rewrite (buildDefaults_last before after declaration name labels ∅ defaults
             Hrun Hl Hafter).
  destruct (GetAttribute (Block_Body declaration) "default"); [done|].
  by rewrite TokensForValue_null_text.
Qed.

Lemma declared_default_in_lookup_witness :
  exists defaults,
    @Legacy.buildDefaults sampleHcl (Blocks (File_Body bareSizeFile)) ∅
    = Done defaults /\
    tokensText (@Legacy.ternary sampleHcl defaults "size")
    = ternaryText "size" "size" [(TokenIdent, "null")].
Proof.
  eexists. split; [vm_compute; reflexivity|].
  apply (@declared_default_in_lookup sampleHcl [] []
           (Samples.variableBlock "size" [("type", Samples.ident 1 "string")])
           "size" []).
  - vm_compute. reflexivity.
  - reflexivity.
  - constructor.
Defined.

(** X18. The legacy rewrite changes nothing outside the module blocks: the
    rewritten document has as many items and blocks as the consumer
    document, its own attributes are those of the consumer document, and a
    block of any other type stands where it stood, as it was, markers or
    not. *)
Theorem other_blocks_untouched `{HclWrite}
    (rangeOrder : gmap string Tokens -> list (string * Tokens))
    (varFile consumer file' : File) :
  Legacy.rewriteLookups rangeOrder varFile consumer = Done file' ->
  length (File_Body file') = length (File_Body consumer) /\
  length (Blocks (File_Body file')) = length (Blocks (File_Body consumer)) /\
  (forall name,
      GetAttribute (File_Body file') name = GetAttribute (File_Body consumer) name) /\
  (forall i block,
      Blocks (File_Body consumer) !! i = Some block ->
      Block_Type block ≠ "module" ->
      Blocks (File_Body file') !! i = Some block).
Proof.
  intros Hrun. unfold Legacy.rewriteLookups in Hrun.
  destruct (Legacy.buildDefaults _ _) as [defaults|] eqn:Ebuild; [|done].
  injection Hrun as <-. simpl. split; [|split; [|split]].
  - unfold Legacy.rewriteBlocks. apply length_fmap.
  - rewrite rewriteBlocks_Blocks. apply length_fmap.
  - intros name. apply rewriteBlocks_attributes.
  - intros i block Hi Hty.
    rewrite rewriteBlocks_Blocks, list_lookup_fmap, Hi. simpl.
    by rewrite rewriteBlock_other.
Qed.

Lemma other_blocks_untouched_witness :
  exists file',
    @Legacy.rewriteLookups sampleHcl map_to_list sizeFile countryConsumer = Done file' /\
    length (File_Body file') = 2 /\
    length (Blocks (File_Body file')) = 2 /\
    (forall name,
        GetAttribute (File_Body file') name
        = GetAttribute (File_Body countryConsumer) name) /\
    (forall i block,
        Blocks (File_Body countryConsumer) !! i = Some block ->
        Block_Type block ≠ "module" ->
        Blocks (File_Body file') !! i = Some block).
Proof.
  eexists. split; [vm_compute; reflexivity|].
  apply (@other_blocks_untouched sampleHcl map_to_list sizeFile countryConsumer).
  vm_compute. reflexivity.
Defined.

(** X19. Rewriting a rewritten document changes no expression: the
    expression built for an attribute has the marker lookup, so a second
    pass builds it again, and the attributes the first pass left alone are
    left alone again.  For every block and every name, the attribute reads
    the same (in the types and bytes of its tokens) after two passes as
    after one. *)
Theorem rewrite_twice_same_text `{HclWrite}
    (rangeOrder : gmap string Tokens -> list (string * Tokens))
    (varFile consumer once : File) :
  (forall m, rangeOrder m ≡ₚ map_to_list m) ->
  Legacy.rewriteLookups rangeOrder varFile consumer = Done once ->
  exists twice,
    Legacy.rewriteLookups rangeOrder varFile once = Done twice /\
    length (Blocks (File_Body twice)) = length (Blocks (File_Body once)) /\
    forall i block1,
      Blocks (File_Body once) !! i = Some block1 ->
      exists block2,
        Blocks (File_Body twice) !! i = Some block2 /\
        Block_Type block2 = Block_Type block1 /\
        Block_Labels block2 = Block_Labels block1 /\
        forall name,
          tokensText <$> GetAttribute (Block_Body block2) name
          = tokensText <$> GetAttribute (Block_Body block1) name.
Proof.
  intros Hperm Hrun. unfold Legacy.rewriteLookups in *.
  destruct (Legacy.buildDefaults _ _) as [defaults|] eqn:Ebuild; [|done].
  injection Hrun as <-. eexists. split; [reflexivity|]. simpl.
  rewrite !rewriteBlocks_Blocks. split; [by rewrite !length_fmap|].
  intros i block1 Hi. rewrite list_lookup_fmap in Hi |- *.
  destruct (Blocks (File_Body consumer) !! i) as [block|] eqn:Eb; [|done].
  simpl in Hi. injection Hi as <-. rewrite list_lookup_fmap, Eb. simpl.
  eexists. split; [reflexivity|].
  destruct (rewriteBlock_header rangeOrder defaults
              (Legacy.rewriteBlock rangeOrder defaults block)) as [-> ->].
  split; [done|]. split; [done|]. intros name.
  by rewrite (rewriteBlock_twice rangeOrder Hperm).
Qed.

Lemma rewrite_twice_same_text_witness :
  exists once twice,
    @Legacy.rewriteLookups sampleHcl map_to_list sizeFile sampleConsumer = Done once /\
    @Legacy.rewriteLookups sampleHcl map_to_list sizeFile once = Done twice /\
    length (Blocks (File_Body twice)) = length (Blocks (File_Body once)) /\
    forall i block1,
      Blocks (File_Body once) !! i = Some block1 ->
      exists block2,
        Blocks (File_Body twice) !! i = Some block2 /\
        Block_Type block2 = Block_Type block1 /\
        Block_Labels block2 = Block_Labels block1 /\
        forall name,
          tokensText <$> GetAttribute (Block_Body block2) name
          = tokensText <$> GetAttribute (Block_Body block1) name.
Proof.
  eexists.
  refine ((fun Hrun =>
             match @rewrite_twice_same_text sampleHcl map_to_list sizeFile
                     sampleConsumer _ (fun m => reflexivity _) Hrun with
             | ex_intro _ twice Hall => ex_intro _ twice (conj Hrun Hall)
             end) _).
  vm_compute. reflexivity.
Defined.

(** X20. The markers are looked for in the bytes of the expression, not in
    its shape: in a module block, an attribute any of whose tokens has try
    or lookup within its bytes, be it a quoted literal or a longer
    identifier, has its expression replaced by the expression built for its
    name. *)
Theorem marker_in_any_token `{HclWrite}
    (rangeOrder : gmap string Tokens -> list (string * Tokens))
    (defaults : gmap string Tokens) (block : Block) (name : string) (e : Tokens)
    (t : Token) :
  (forall m, rangeOrder m ≡ₚ map_to_list m) ->
  Block_Type block = "module" ->
  GetAttribute (Block_Body block) name = Some e ->
  t ∈ e ->
  GoStrings.Contains (Token_Bytes t) "try" = true
  \/ GoStrings.Contains (Token_Bytes t) "lookup" = true ->
  GetAttribute (Block_Body (Legacy.rewriteBlock rangeOrder defaults block)) name
  = Some (Legacy.ternary defaults name).
Proof.
  intros Hperm Hty Hget Hin Hmark.
  rewrite (rewriteBlock_attribute rangeOrder Hperm defaults block name e Hty Hget).
  assert (Legacy.hasMarker (Tokens_Bytes e) = true) as ->; [|done].
  unfold Legacy.hasMarker. apply orb_true_iff.
  destruct Hmark as [Hm|Hm]; [left|right]; by apply (Contains_Tokens_Bytes e t).
Qed.

Lemma marker_in_any_token_witness :
  GetAttribute
    (Block_Body
       (@Legacy.rewriteBlock sampleHcl map_to_list ∅
          (MkBlock "module" ["addon"]
             [ItemAttr "region" (Samples.quoted 1 "country")])))
    "region"
  = Some (@Legacy.ternary sampleHcl ∅ "region").
Proof.
  apply (@marker_in_any_token sampleHcl map_to_list ∅
           (MkBlock "module" ["addon"] [ItemAttr "region" (Samples.quoted 1 "country")])
           "region" (Samples.quoted 1 "country") (mkToken TokenQuotedLit "country" 0)).
  - intros m. reflexivity.
  - reflexivity.
  - reflexivity.
  - vm_compute. apply list_elem_of_further, list_elem_of_here.
  - left. reflexivity.
Defined.

(** ** The sync command *)

(** X21. With a log level other than debug, info, warn, warning and error,
    written so, the sync command exits with status 1 before anything else
    happens: the world is left as it was, nothing is logged and no module
    is processed. *)
Theorem unknown_log_level_exits_early `{HclWrite} `{Filepath}
    (config : Cmd.appConfig) (flags : Cmd.syncFlags) (deadlineLook : option nat)
    (w : World) :
  Cmd.logLevel config ∉ ["debug"; "info"; "warn"; "warning"; "error"] ->
  Cmd.Execute config flags deadlineLook w = (1%Z, w).
Proof.
  intros Hlevel. unfold Cmd.Execute, Cmd.PersistentPreRunE, Cmd.levelOf.
  assert (forall spelling : string,
             spelling ∈ ["debug"; "info"; "warn"; "warning"; "error"] ->
             Cmd.logLevel config ≠ spelling) as Hne.
  { intros spelling Hin E. apply Hlevel. by rewrite E. }
  destruct (decide (Cmd.logLevel config = "debug")) as [E|_].
  { exfalso. revert E. apply Hne. apply list_elem_of_here. }
  destruct (decide (Cmd.logLevel config = "info")) as [E|_].
  { exfalso. revert E. apply Hne. apply list_elem_of_further, list_elem_of_here. }
  destruct (decide (Cmd.logLevel config = "warn" \/ Cmd.logLevel config = "warning"))
    as [[E|E]|_].
  { exfalso. revert E. apply Hne. do 2 apply list_elem_of_further.
    apply list_elem_of_here. }
  { exfalso. revert E. apply Hne. do 3 apply list_elem_of_further.
    apply list_elem_of_here. }
  destruct (decide (Cmd.logLevel config = "error")) as [E|_].
  { exfalso. revert E. apply Hne. do 4 apply list_elem_of_further.
    apply list_elem_of_here. }
  done.
Qed.

Lemma unknown_log_level_exits_early_witness :
  @Cmd.Execute sampleHcl Samples.plainPaths loudConfig sampleFlags None sampleWorld
  = (1%Z, sampleWorld).
Proof.
  apply (@unknown_log_level_exits_early sampleHcl Samples.plainPaths loudConfig
           sampleFlags None sampleWorld).
  vm_compute. intros Hin.
  repeat (apply elem_of_cons in Hin as [Hin|Hin]; [discriminate|]).
  by apply elem_of_nil in Hin.
Defined.

Section Quiet.
Variable processModule : string -> M (option error).

Lemma errorFree_logAt (l : Level) (msg : string) (attrs : list (string * LogValue))
    (w : World) :
  l ≠ LevelError -> errorFree w -> errorFree (logAt l msg attrs w).
Proof.
  unfold errorFree. simpl. intros Hl Hw. apply Forall_app. split; [done|].
  by constructor.
Qed.

(** The error counter never goes down. *)
Lemma processEntries_errorCount (ctx : Context) (entries : list DirEntry) :
  forall (tick : nat) (c : Counts) (w : World) (c' : Counts) (w' : World),
    Orchestrator.processEntries processModule ctx tick entries c w
    = (Done (LoopEnd c'), w') ->
    errorCount c <= errorCount c'.
Proof.
  induction entries as [|entry rest IH]; intros tick c w c' w' Hrun; simpl in Hrun.
  - by inversion Hrun.
  - destruct (Context_Err ctx tick); [done|].
    destruct (DirEntry_IsDir entry); simpl in Hrun; [|by eapply IH].
    destruct (Orchestrator.skipped (DirEntry_Name entry)).
    + apply IH in Hrun. simpl in Hrun. lia.
    + destruct (processModule _ _) as [[[procErr|]|msg] w2]; [| |done];
        apply IH in Hrun; simpl in Hrun; lia.
Qed.

(** A loop that ends with the error counter it started with has logged no
    error, when the calls that return nil log none. *)
Lemma processEntries_errorFree (ctx : Context) (entries : list DirEntry) :
  (forall name w w',
      errorFree w -> processModule name w = (Done nilError, w') -> errorFree w') ->
  forall (tick : nat) (c : Counts) (w : World) (c' : Counts) (w' : World),
    errorFree w ->
    Orchestrator.processEntries processModule ctx tick entries c w
    = (Done (LoopEnd c'), w') ->
    errorCount c' = errorCount c ->
    errorFree w'.
Proof.
  intros Hcall.
  induction entries as [|entry rest IH]; intros tick c w c' w' Hw Hrun Hcount;
    simpl in Hrun.
  - by inversion Hrun; subst.
  - destruct (Context_Err ctx tick); [done|].
    destruct (DirEntry_IsDir entry); simpl in Hrun; [|by eapply IH].
    destruct (Orchestrator.skipped (DirEntry_Name entry)).
    + eapply IH; [|exact Hrun|done]. by apply errorFree_logAt.
    + destruct (processModule _ _) as [[[procErr|]|msg] w2] eqn:Ecall; [| |done].
      * apply processEntries_errorCount in Hrun. simpl in Hrun. lia.
      * eapply IH; [|exact Hrun|done].
        eapply Hcall; [|exact Ecall]. by apply errorFree_logAt.
Qed.

End Quiet.

Section QuietSync.
Context `{HclWrite} `{Filepath}.

Lemma processModule_errorFree (vp : Sync.VariableProcessor) (ctx : Context)
    (name : string) (w w' : World) :
  errorFree w -> Sync.processModule vp ctx name w = (Done nilError, w') -> errorFree w'.
Proof.
  intros Hw. unfold Sync.processModule, Sync.extractVariables.
  set (sourcePath := filepath_Join [Sync.modulesDir vp; _; _; _; _]).
  destruct (os_ReadFile sourcePath _) as [err|src]; [done|].
  destruct (ParseConfig src _) as [diags|parsed]; [done|].
  unfold Sync.syncAddonVariables.
  destruct (Sync.synthesize _) as [out|msg]; [|done]. simpl.
  unfold os_WriteFile. simpl.
  destruct (files w !! _) as [[e|data]|]; simpl; [done| |];
    (destruct (faults w !! _) as [[n e]|]; simpl; [done|]);
    intros [= <-]; unfold errorFree; simpl;
    (apply Forall_app; split; [|by constructor]);
    (apply Forall_app; split; [done|by constructor]).
Qed.

End QuietSync.

(** X22. A run of the sync command that exits with status 0 has logged no
    record of level error: no module failed, no file failed to be read,
    parsed or written, and the run was not cancelled. *)
Theorem success_logs_no_error `{HclWrite} `{Filepath}
    (config : Cmd.appConfig) (flags : Cmd.syncFlags) (deadlineLook : option nat)
    (w w' : World) :
  errorFree w ->
  Cmd.Execute config flags deadlineLook w = (0%Z, w') ->
  errorFree w' /\
  last (logged w')
  = Some (mkLogRecord LevelInfo "Variable synchronization completed successfully" []).
Proof.
  intros Hw. unfold Cmd.Execute, Cmd.PersistentPreRunE.
  destruct (Cmd.levelOf (Cmd.logLevel config)) as [err|level]; [done|].
  unfold Cmd.RunE, Sync.ProcessModules, Orchestrator.ProcessModules.
  set (ctx := Cmd.CreateContextWithTimeout _ deadlineLook).
  set (vp := Sync.NewVariableProcessor _ _ _).
  set (w0 := logAt LevelDebug "Using log level" _ w).
  assert (errorFree w0) as Hw0 by (by apply errorFree_logAt).
  set (w1 := logAt LevelInfo "Starting variable sync from modules" _ w0).
  assert (errorFree w1) as Hw1 by (by apply errorFree_logAt).
  destruct (os_ReadDir (Sync.modulesDir vp) w1) as [err|entries].
  - destruct (errors_Is_ErrNotExist err); [|done]. intros [= <-].
    split; [|simpl; apply last_snoc].
    apply errorFree_logAt; [done|]. by apply errorFree_logAt.
  - destruct (Orchestrator.processEntries _ _ _ _ _ _) as [[[err|c]|msg] w2] eqn:Eloop;
      [done| |done].
    case_decide as Hcount; [done|]. intros [= <-].
    split; [|simpl; apply last_snoc].
    apply errorFree_logAt; [done|]. apply errorFree_logAt; [done|].
    eapply (processEntries_errorFree (Sync.processModule vp ctx)); [|exact Hw1|exact Eloop|].
    + intros name wa wb. apply processModule_errorFree.
    + simpl. lia.
Qed.

Lemma success_logs_no_error_witness :
  exists w' : World,
    @Cmd.Execute sampleHcl Samples.plainPaths Cmd.newAppConfig sampleFlags None
      quietWorld = (0%Z, w') /\
    errorFree w' /\
    last (logged w')
    = Some (mkLogRecord LevelInfo "Variable synchronization completed successfully" []).
Proof.
  eexists. split; [vm_compute; reflexivity|].
  apply (@success_logs_no_error sampleHcl Samples.plainPaths Cmd.newAppConfig
           sampleFlags None quietWorld).
  - constructor.
  - vm_compute. reflexivity.
Defined.

(** X23. With a timeout that is not positive, a log level that is known
    and a modules directory that lists at least one entry, the sync command
    exits with status 1 without processing a module: what it logs is the
    level, the start, the cancellation and the failure, the last two with
    the error of a deadline that has passed. *)
Theorem nonpositive_timeout_fails `{HclWrite} `{Filepath}
    (config : Cmd.appConfig) (flags : Cmd.syncFlags) (deadlineLook : option nat)
    (level : Level) (entry : DirEntry) (entries : list DirEntry) (w : World) :
  (Cmd.timeout config <= 0)%Z ->
  Cmd.levelOf (Cmd.logLevel config) = inr level ->
  dirs w !! filepath_Join [Cmd.flag_workDir flags; Cmd.flag_modulesDir flags]
  = Some (inr (entry :: entries)) ->
  Cmd.Execute config flags deadlineLook w
  = (1%Z,
     logAt LevelError "Variable synchronization failed"
       [("error", LogErr context_DeadlineExceeded)]
       (logAt LevelWarn "Processing cancelled"
          [("error", LogErr context_DeadlineExceeded)]
          (startRecord
             (filepath_Join [Cmd.flag_workDir flags; Cmd.flag_modulesDir flags])
             (logAt LevelDebug "Using log level"
                [("level", LogString (Cmd.Level_String level))] w)))).
Proof.
  intros Htimeout Hlevel Hdir.
  unfold Cmd.Execute, Cmd.PersistentPreRunE. rewrite Hlevel.
  unfold Cmd.RunE, Cmd.CreateContextWithTimeout, Cmd.GetTimeout. simpl.
  case_decide; [|done].
  unfold Sync.ProcessModules, Orchestrator.ProcessModules, os_ReadDir. simpl.
  by rewrite Hdir.
Qed.

Lemma nonpositive_timeout_fails_witness :
  @Cmd.Execute sampleHcl Samples.plainPaths hurriedConfig sampleFlags None sampleWorld
  = (1%Z,
     logAt LevelError "Variable synchronization failed"
       [("error", LogErr context_DeadlineExceeded)]
       (logAt LevelWarn "Processing cancelled"
          [("error", LogErr context_DeadlineExceeded)]
          (startRecord "work/modules"
             (logAt LevelDebug "Using log level" [("level", LogString "INFO")]
                sampleWorld)))).
Proof.
  apply (@nonpositive_timeout_fails sampleHcl Samples.plainPaths hurriedConfig
           sampleFlags None LevelInfo (mkDirEntry "README.md" false)
           (tail sampleEntries) sampleWorld).
  - vm_compute. discriminate.
  - reflexivity.
  - vm_compute. reflexivity.
Defined.

(** X24. With a log level that is known and no modules directory, the sync
    command exits with status 0: it logs the level, the start, the warning
    that the directory was not found and the completion, and changes no
    file. *)
Theorem missing_directory_exits_zero `{HclWrite} `{Filepath}
    (config : Cmd.appConfig) (flags : Cmd.syncFlags) (deadlineLook : option nat)
    (level : Level) (w : World) :
  Cmd.levelOf (Cmd.logLevel config) = inr level ->
  dirs w !! filepath_Join [Cmd.flag_workDir flags; Cmd.flag_modulesDir flags] = None ->
  Cmd.Execute config flags deadlineLook w
  = (0%Z,
     logAt LevelInfo "Variable synchronization completed successfully" []
       (logAt LevelWarn "Modules directory not found, skipping sync"
          [("modulesDir",
            LogString (filepath_Join [Cmd.flag_workDir flags;
                                      Cmd.flag_modulesDir flags]))]
          (startRecord
             (filepath_Join [Cmd.flag_workDir flags; Cmd.flag_modulesDir flags])
             (logAt LevelDebug "Using log level"
                [("level", LogString (Cmd.Level_String level))] w)))).
Proof.
  intros Hlevel Hdir.
  unfold Cmd.Execute, Cmd.PersistentPreRunE. rewrite Hlevel.
  unfold Cmd.RunE, Sync.ProcessModules, Orchestrator.ProcessModules, os_ReadDir. simpl.
  by rewrite Hdir.
Qed.

Lemma missing_directory_exits_zero_witness :
  @Cmd.Execute sampleHcl Samples.plainPaths Cmd.newAppConfig sampleFlags None
    emptyWorld
  = (0%Z,
     logAt LevelInfo "Variable synchronization completed successfully" []
       (logAt LevelWarn "Modules directory not found, skipping sync"
          [("modulesDir", LogString "work/modules")]
          (startRecord "work/modules"
             (logAt LevelDebug "Using log level" [("level", LogString "INFO")]
                emptyWorld)))).
Proof.
  apply (@missing_directory_exits_zero sampleHcl Samples.plainPaths Cmd.newAppConfig
           sampleFlags None LevelInfo emptyWorld).
  - reflexivity.
  - vm_compute. reflexivity.
Defined.

(** ** Edge cases of one module *)

(** X25. When the source file declares no variable to carry over (every
    block is of another type, has no label or is named "enabled"), the
    module is processed all the same: unless the target cannot be written,
    the call returns nil and the target file holds the banner line followed
    by the bytes of an empty document.  When the target can be opened and
    the write then fails, the call returns an error and the target holds
    the bytes of that text put down before the failure. *)
Theorem nothing_declared_banner_only `{HclWrite} `{Filepath}
    (vp : Sync.VariableProcessor) (ctx : Context) (moduleName src : string)
    (parsed : File) (w : World) :
  files w !! filepath_Join [Sync.modulesDir vp; moduleName; "modules"; moduleName;
                            Sync.sourceVariableFileName] = Some (inr src) ->
  ParseConfig src
    (filepath_Base (filepath_Join [Sync.modulesDir vp; moduleName; "modules";
                                   moduleName; Sync.sourceVariableFileName]))
  = inr parsed ->
  Forall (fun block => extractable block -> head (Block_Labels block) = Some "enabled")
         (Blocks (File_Body parsed)) ->
  (forall e,
      files w !! filepath_Join [Sync.targetDir vp;
                                Sync.targetVariableFilePattern moduleName]
      ≠ Some (inl e)) ->
  match faults w !! filepath_Join [Sync.targetDir vp;
                                   Sync.targetVariableFilePattern moduleName] with
  | None =>
      (Sync.processModule vp ctx moduleName w).1 = Done nilError /\
      files (Sync.processModule vp ctx moduleName w).2
        !! filepath_Join [Sync.targetDir vp; Sync.targetVariableFilePattern moduleName]
      = Some (inr (Sync.banner +:+ newline +:+ File_Bytes NewEmptyFile))
  | Some (n, e) =>
      (exists err, (Sync.processModule vp ctx moduleName w).1 = Done (Some err)) /\
      files (Sync.processModule vp ctx moduleName w).2
        !! filepath_Join [Sync.targetDir vp; Sync.targetVariableFilePattern moduleName]
      = Some (inr (String.substring 0 n
                     (Sync.banner +:+ newline +:+ File_Bytes NewEmptyFile)))
  end.
Proof.
  intros Hfile Hparse Hnone Htarget.
  unfold Sync.processModule, Sync.extractVariables, os_ReadFile. simpl.
  rewrite Hfile, Hparse, appendVariableBlocks_items. simpl.
  unfold Sync.syncAddonVariables, Sync.synthesize. simpl. rewrite Blocks_ItemBlock.
  assert (forall file,
             Sync.synthesizeBlocks (filter extractable (Blocks (File_Body parsed))) file
             = Done file) as ->.
  { induction Hnone as [|block rest Hb _ IH]; intros file; [done|].
    rewrite filter_cons. case_decide as Hex; [|apply IH].
    simpl. unfold Sync.synthesizeBlock at 1.
    specialize (Hb Hex).
    destruct (Block_Labels block) as [|label0 labels]; [done|].
    simpl in Hb. injection Hb as ->.
    case_decide; [apply IH|done]. }
  simpl. unfold os_WriteFile. simpl.
  destruct (files w !! filepath_Join [Sync.targetDir vp; _]) as [[e|data]|] eqn:Et;
    simpl; [by destruct (Htarget e)| |];
    (destruct (faults w !! filepath_Join [Sync.targetDir vp; _]) as [[n e]|]; simpl;
     [split; [by eexists|apply lookup_insert_eq]
     |split; [done|apply lookup_insert_eq]]).
Qed.

Lemma nothing_declared_banner_only_witness :
  (@Sync.processModule enabledOnlyHcl Samples.plainPaths sampleProcessor neverCancelled
     "addon-x" enabledOnlyWorld).1 = Done nilError /\
  files (@Sync.processModule enabledOnlyHcl Samples.plainPaths sampleProcessor
           neverCancelled "addon-x" enabledOnlyWorld).2
    !! "out/variables-addon-x.tf"
  = Some (inr (Sync.banner +:+ newline)).
Proof.
  refine (@nothing_declared_banner_only enabledOnlyHcl Samples.plainPaths
            sampleProcessor neverCancelled "addon-x" enabledOnlySource enabledOnlyFile
            enabledOnlyWorld _ _ _ _).
  - vm_compute. reflexivity.
  - vm_compute. reflexivity.
  - repeat constructor; intros [Hty Hl]; vm_compute in Hty; discriminate || reflexivity.
  - intros e. vm_compute. discriminate.
Defined.

(** X26. When the variables file of a module does not exist, processing the
    module returns an error in which the cause can still be recognised as
    the absence of a file, through the two layers that wrap it; one error
    record is logged and no file is written.  In a batch this counts as a
    failed module, not a skipped one. *)
Theorem missing_source_is_an_error `{HclWrite} `{Filepath}
    (vp : Sync.VariableProcessor) (ctx : Context) (moduleName : string) (w : World) :
  files w !! filepath_Join [Sync.modulesDir vp; moduleName; "modules"; moduleName;
                            Sync.sourceVariableFileName] = None ->
  exists err w',
    Sync.processModule vp ctx moduleName w = (Done (Some err), w') /\
    errors_Is_ErrNotExist err = true /\
    files w' = files w /\
    exists attrs, last (logged w') = Some (mkLogRecord LevelError "Failed to read file" attrs).
Proof.
  intros Hfile. unfold Sync.processModule, Sync.extractVariables, os_ReadFile. simpl.
  rewrite Hfile. eexists _, _. split; [reflexivity|]. split; [reflexivity|].
  split; [reflexivity|]. eexists. simpl. apply last_snoc.
Qed.

Lemma missing_source_is_an_error_witness :
  exists err w',
    @Sync.processModule sampleHcl Samples.plainPaths sampleProcessor neverCancelled
      "addon-bad" sampleWorld = (Done (Some err), w') /\
    errors_Is_ErrNotExist err = true /\
    files w' = files sampleWorld /\
    exists attrs, last (logged w') = Some (mkLogRecord LevelError "Failed to read file" attrs).
Proof.
  apply (@missing_source_is_an_error sampleHcl Samples.plainPaths sampleProcessor
           neverCancelled "addon-bad" sampleWorld).
  vm_compute. reflexivity.
Defined.
